(** * A shallow embedding of the CA-bundle injector webhook (src/src/app.py)

    The handler [mutate] receives an AdmissionReview, deep-copies the embedded
    object, and, when the trigger annotation is the string "true", makes sure a
    ConfigMap holding the CA bundle exists in the object's namespace
    ([read_namespaced_config_map], falling back to [create_configmap]) before
    adding a [ca-bundle] volume and mounts to the copy.  The response carries
    the base64 of [jsonpatch.JsonPatch.from_diff(spec, modified_spec)].

    Python values parsed from JSON are modelled as the tree type [json]; the
    Python exceptions the code can raise as [exc]; the Kubernetes API, the
    remote HTTP source and the jsonpatch library as collaborators. *)

From Stdlib Require Import String Ascii List ZArith Bool Lia.
Import ListNotations.
Open Scope string_scope.
Open Scope list_scope.
#[global] Set Warnings "-register-all".

(** ** JSON values, as [json.loads] produces them *)

Inductive json : Type :=
| JNull : json
| JBool : bool -> json
| JNum : Z -> json
| JStr : string -> json
| JArr : list json -> json
| JObj : list (string * json) -> json.

(** Structural equality of JSON values (Python [==] on parsed JSON, up to
    the [True == 1] coincidence, which the code never meets). *)
Fixpoint json_eqb (a b : json) : bool :=
  match a, b with
  | JNull, JNull => true
  | JBool x, JBool y => Bool.eqb x y
  | JNum x, JNum y => Z.eqb x y
  | JStr x, JStr y => String.eqb x y
  | JArr xs, JArr ys =>
      (fix go (xs ys : list json) : bool :=
         match xs, ys with
         | [], [] => true
         | x :: xs', y :: ys' => json_eqb x y && go xs' ys'
         | _, _ => false
         end) xs ys
  | JObj xs, JObj ys =>
      (fix go (xs ys : list (string * json)) : bool :=
         match xs, ys with
         | [], [] => true
         | (k, x) :: xs', (k', y) :: ys' =>
             String.eqb k k' && json_eqb x y && go xs' ys'
         | _, _ => false
         end) xs ys
  | _, _ => false
  end.

(** ** Python exceptions raised along the handler's paths *)

Inductive exc : Type :=
| KeyError : string -> exc              (** [d[k]] on a dict without [k] *)
| TypeError : exc                       (** subscript / [in] / iteration on the wrong type *)
| AttributeError : exc                  (** [.get] or [.append] on the wrong type *)
| ApiException : Z -> exc               (** kubernetes.client.exceptions.ApiException(status) *)
| TransportError : exc                  (** connection-level failure (urllib3 / requests) *)
| FetchException : string -> Z -> exc   (** [Exception(f"fetch {url} failed: {status}")] *)
| UnicodeDecodeError : exc              (** [bytes.decode('ascii')] on a byte >= 128 *)
| RecursionError : exc                  (** [copy.deepcopy] past the recursion limit *)
| ConfigException : exc.                (** [config.load_incluster_config()] outside a pod *)

Inductive res (A : Type) : Type :=
| Ok : A -> res A
| Err : exc -> res A.
Arguments Ok {A} _.
Arguments Err {A} _.

Definition res_bind {A B} (r : res A) (f : A -> res B) : res B :=
  match r with Ok a => f a | Err e => Err e end.

Notation "x <-? c ; k" := (res_bind c (fun x => k))
  (at level 60, c at next level, right associativity).

(** ** Python dict / list primitives on JSON values *)

Fixpoint assoc (k : string) (kvs : list (string * json)) : option json :=
  match kvs with
  | [] => None
  | (k', v) :: kvs' => if String.eqb k k' then Some v else assoc k kvs'
  end.

(** [d[k] = v]: an existing key keeps its position, a new key goes last. *)
Fixpoint assoc_set (k : string) (v : json) (kvs : list (string * json))
  : list (string * json) :=
  match kvs with
  | [] => [(k, v)]
  | (k', v') :: kvs' =>
      if String.eqb k k' then (k', v) :: kvs' else (k', v') :: assoc_set k v kvs'
  end.

(** [v[k]] with a string key. *)
Definition py_getitem (v : json) (k : string) : res json :=
  match v with
  | JObj kvs => match assoc k kvs with Some x => Ok x | None => Err (KeyError k) end
  | _ => Err TypeError
  end.

(** [v.get(k)]; a missing key gives [None], i.e. [JNull]. *)
Definition py_get (v : json) (k : string) : res json :=
  match v with
  | JObj kvs => match assoc k kvs with Some x => Ok x | None => Ok JNull end
  | _ => Err AttributeError
  end.

(** [k in v].  On a dict it tests the keys.  On a list or a string it would
    test membership or a substring, but every use in the handler then
    subscripts or assigns into that same non-dict value, which raises
    [TypeError] either way; the model raises it at the test. *)
Definition py_contains (v : json) (k : string) : res bool :=
  match v with
  | JObj kvs => match assoc k kvs with Some _ => Ok true | None => Ok false end
  | _ => Err TypeError
  end.

(** [v[k] = x] *)
Definition py_setitem (v : json) (k : string) (x : json) : res json :=
  match v with
  | JObj kvs => Ok (JObj (assoc_set k x kvs))
  | _ => Err TypeError
  end.

(** [v.append(x)] *)
Definition py_append (v : json) (x : json) : res json :=
  match v with
  | JArr l => Ok (JArr (l ++ [x]))
  | _ => Err AttributeError
  end.

Fixpoint chars (s : string) : list json :=
  match s with
  | EmptyString => []
  | String c s' => JStr (String c EmptyString) :: chars s'
  end.

(** The elements [for c in v] visits: list items, dict keys, string chars. *)
Definition py_iter (v : json) : res (list json) :=
  match v with
  | JArr l => Ok l
  | JObj kvs => Ok (map (fun kv => JStr (fst kv)) kvs)
  | JStr s => Ok (chars s)
  | _ => Err TypeError
  end.

Fixpoint res_mapM {A B} (f : A -> res B) (l : list A) : res (list B) :=
  match l with
  | [] => Ok []
  | x :: l' => y <-? f x ; ys <-? res_mapM f l' ; Ok (y :: ys)
  end.

(** [for c in v: <mutate c in place>].  The items of a list are updated in
    place; iterating a dict or a string yields fresh [str] objects, on which
    the body raises, so such a [v] only survives when it is empty. *)
Definition for_each_mut (f : json -> res json) (v : json) : res json :=
  match v with
  | JArr l => l' <-? res_mapM f l ; Ok (JArr l')
  | _ => elems <-? py_iter v ; _ <-? res_mapM f elems ; Ok v
  end.

(** ** Configuration, read once from the environment (lines 13-16) *)

Record config : Type := {
  configmap_name : string;        (** CA_BUNDLE_CONFIGMAP *)
  ca_bundle_filename : string;    (** CA_BUNDLE_FILENAME *)
  ca_bundle_url : string;         (** CA_BUNDLE_URL *)
  ca_bundle_annotation : string   (** CA_BUNDLE_ANNOTATION *)
}.

(** ** Collaborators: the cluster API and the remote bundle source *)

Record configmap : Type := {
  cm_namespace : json;
  cm_name : string;
  cm_data : list (string * string)
}.

(** The external calls the webhook makes, in the order it makes them. *)
Inductive call : Type :=
| CallRead : json -> string -> call
| CallFetch : string -> call
| CallCreate : json -> string -> call.

Record cluster : Type := {
  configmaps : list configmap;
  calls : list call
}.

Inductive fetch_outcome : Type :=
| Response : Z -> list Byte.byte -> fetch_outcome   (** status code, body bytes *)
| FetchRaises : exc -> fetch_outcome.               (** [requests.get] raised *)

(** What the outside world does independently of the ConfigMaps present:
    a read or a create may fail for a reason of its own (permission denied,
    server error: [ApiException s]; connection failure: [TransportError]);
    a create that fails may nevertheless have been stored by the API server
    ([create_commits]: a timeout or a connection dropped after the commit);
    the bundle URL answers in some way; [load_incluster_config()] finds the
    service-account token and the service host of a pod, or not
    ([in_cluster]); and the Python stack has some room left for
    [copy.deepcopy] ([copy_headroom], see [copy_fuel]). *)
Record env : Type := {
  read_fault : json -> option exc;
  create_fault : json -> option exc;
  create_commits : json -> bool;
  fetch : string -> fetch_outcome;
  in_cluster : bool;
  copy_headroom : nat
}.

(** State-and-error monad threading the cluster through the handler. *)
Definition M (A : Type) : Type := env -> cluster -> res A * cluster.

Definition ret {A} (a : A) : M A := fun _ st => (Ok a, st).
Definition raise {A} (e : exc) : M A := fun _ st => (Err e, st).
Definition bind {A B} (m : M A) (f : A -> M B) : M B :=
  fun e st => match m e st with
              | (Ok a, st') => f a e st'
              | (Err x, st') => (Err x, st')
              end.
Definition lift {A} (r : res A) : M A :=
  fun _ st => (r, st).

Notation "x <- m ;; k" := (bind m (fun x => k))
  (at level 61, m at next level, right associativity).
Notation "m ;;; k" := (bind m (fun _ => k))
  (at level 61, right associativity).

Definition log (c : call) : M unit :=
  fun _ st => (Ok tt, {| configmaps := configmaps st; calls := calls st ++ [c] |}).

Definition cm_matches (ns : json) (name : string) (cm : configmap) : bool :=
  json_eqb (cm_namespace cm) ns && String.eqb (cm_name cm) name.

Definition cm_exists (ns : json) (name : string) (st : cluster) : bool :=
  existsb (cm_matches ns name) (configmaps st).

(** [v1_api.read_namespaced_config_map(namespace=ns, name=name)]:
    not found is [ApiException(404)]. *)
Definition read_namespaced_config_map (ns : json) (name : string) : M unit :=
  log (CallRead ns name) ;;;
  fun e st =>
    match read_fault e ns with
    | Some x => (Err x, st)
    | None => if cm_exists ns name st then (Ok tt, st) else (Err (ApiException 404), st)
    end.

(** [v1_api.create_namespaced_config_map(namespace=ns, body=cm)]:
    a duplicate is rejected by the API server with [ApiException(409)]; a
    call that fails for a reason of its own may have stored the ConfigMap
    before failing. *)
Definition create_namespaced_config_map (ns : json) (cm : configmap) : M unit :=
  log (CallCreate ns (cm_name cm)) ;;;
  fun e st =>
    match create_fault e ns with
    | Some x =>
        if create_commits e ns && negb (cm_exists ns (cm_name cm) st)
        then (Err x, {| configmaps := configmaps st ++ [cm]; calls := calls st |})
        else (Err x, st)
    | None =>
        if cm_exists ns (cm_name cm) st then (Err (ApiException 409), st)
        else (Ok tt, {| configmaps := configmaps st ++ [cm]; calls := calls st |})
    end.

(** [requests.get(url, stream=True)] *)
Definition requests_get (url : string) : M (Z * list Byte.byte) :=
  log (CallFetch url) ;;;
  fun e st =>
    match fetch e url with
    | Response s body => (Ok (s, body), st)
    | FetchRaises x => (Err x, st)
    end.

(** [bytes.decode('ascii')] *)
Fixpoint decode_ascii (bs : list Byte.byte) : res string :=
  match bs with
  | [] => Ok EmptyString
  | b :: bs' =>
      if (Byte.to_nat b <? 128)%nat
      then s <-? decode_ascii bs' ; Ok (String (ascii_of_nat (Byte.to_nat b)) s)
      else Err UnicodeDecodeError
  end.

(** ** [create_configmap(v1_api, namespace)], lines 19-37 *)
Definition create_configmap (cfg : config) (ns : json) : M unit :=
  r <- requests_get (ca_bundle_url cfg) ;;
  let (status, content) := r in
  if negb (Z.eqb status 200)
  then raise (FetchException (ca_bundle_url cfg) status)
  else
    ca_bundle <- lift (decode_ascii content) ;;
    create_namespaced_config_map ns
      {| cm_namespace := ns; cm_name := configmap_name cfg;
         cm_data := [(ca_bundle_filename cfg, ca_bundle)] |}.

(** ** Provisioning, lines 50-53:
<<
        try:
            v1_api.read_namespaced_config_map(namespace=namespace, name=configmap_name)
        except ApiException:
            create_configmap(v1_api, namespace)
>> *)
Definition ensure (cfg : config) (ns : json) : M unit :=
  fun e st =>
    match read_namespaced_config_map ns (configmap_name cfg) e st with
    | (Err (ApiException _), st') => create_configmap cfg ns e st'
    | other => other
    end.

(** ** The mutation, lines 55-84 *)

(** [volume], lines 55-61 *)
Definition ca_volume (cfg : config) : json :=
  JObj [("name", JStr "ca-bundle");
        ("configMap", JObj [("name", JStr (configmap_name cfg));
                            ("defaultMode", JNum 420)])].

(** [volume_mount], lines 62-66 *)
Definition ca_volume_mount (cfg : config) : json :=
  JObj [("name", JStr "ca-bundle");
        ("mountPath", JStr ("/etc/ssl/certs/" ++ ca_bundle_filename cfg));
        ("subPath", JStr (ca_bundle_filename cfg))].

(** The loop body of lines 74-78 and 80-84:
<<
            if 'volumeMounts' in c:
                c['volumeMounts'].append(volume_mount)
            else:
                c['volumeMounts'] = [volume_mount]
>> *)
Definition add_mount (vm : json) (c : json) : res json :=
  has <-? py_contains c "volumeMounts" ;
  if has then
    vms <-? py_getitem c "volumeMounts" ;
    vms' <-? py_append vms vm ;
    py_setitem c "volumeMounts" vms'
  else py_setitem c "volumeMounts" (JArr [vm]).

(** Lines 68-84, on [modified_spec] once provisioning has returned.  The
    dict [modified_spec['spec']] is one object throughout; the model threads
    it through the steps and stores it back at the end. *)
Definition inject (cfg : config) (modified_spec : json) : res json :=
  let volume := ca_volume cfg in
  let volume_mount := ca_volume_mount cfg in
  sp <-? py_getitem modified_spec "spec" ;
  has_vols <-? py_contains sp "volumes" ;
  sp1 <-? (if has_vols then
             vols <-? py_getitem sp "volumes" ;
             vols' <-? py_append vols volume ;
             py_setitem sp "volumes" vols'
           else py_setitem sp "volumes" (JArr [volume])) ;
  has_init <-? py_contains sp1 "initContainers" ;
  sp2 <-? (if has_init then
             ics <-? py_getitem sp1 "initContainers" ;
             ics' <-? for_each_mut (add_mount volume_mount) ics ;
             py_setitem sp1 "initContainers" ics'
           else Ok sp1) ;
  cs <-? py_getitem sp2 "containers" ;
  cs' <-? for_each_mut (add_mount volume_mount) cs ;
  sp3 <-? py_setitem sp2 "containers" cs' ;
  py_setitem modified_spec "spec" sp3.

Definition is_true_string (v : json) : bool :=
  match v with JStr s => String.eqb s "true" | _ => false end.

(** [copy.deepcopy(v)] of a parsed JSON tree, as a value: an equal tree
    (the heap model of [Module Heap] follows the aliasing).  Each nested
    call of [deepcopy] takes two Python frames, [deepcopy] and its copier
    ([_deepcopy_dict], [_deepcopy_list] or [_deepcopy_atomic]); [fuel]
    counts the nested calls that fit under the recursion limit, and a call
    with none left raises [RecursionError].  [_deepcopy_dict] copies the
    value, then the key ([y[deepcopy(key, memo)] = deepcopy(value, memo)]);
    a [str] is its own copy. *)
Fixpoint py_deepcopy (fuel : nat) (v : json) : res json :=
  match fuel with
  | 0 => Err RecursionError
  | S n =>
      match v with
      | JArr l => l' <-? res_mapM (py_deepcopy n) l ; Ok (JArr l')
      | JObj kvs =>
          kvs' <-? res_mapM (fun kv => x <-? py_deepcopy n (snd kv) ;
                                       _ <-? py_deepcopy n (JStr (fst kv)) ;
                                       Ok (fst kv, x)) kvs ;
          Ok (JObj kvs')
      | _ => Ok v
      end
  end.

(** The nesting depth [py_deepcopy] needs: one call per level, scalars
    included. *)
Fixpoint json_depth (v : json) : nat :=
  match v with
  | JArr l => S (list_max (map json_depth l))
  | JObj kvs => S (list_max (map (fun kv => json_depth (snd kv)) kvs))
  | _ => 1
  end.

(** The app never calls [sys.setrecursionlimit], so the limit is the
    default 1000 frames, and [deepcopy] fits (1000 - frames in use) / 2
    nested calls.  The Flask and Werkzeug dispatch that calls [mutate()]
    uses far fewer than 800 frames (a few dozen), so at least [copy_floor]
    nested calls always fit; how many more depends on the server. *)
Definition copy_floor : nat := 100.

Definition copy_fuel (e : env) : nat := copy_headroom e + copy_floor.

(** [modified_spec = copy.deepcopy(spec)], line 43 *)
Definition deepcopy (v : json) : M json :=
  fun e st => (py_deepcopy (copy_fuel e) v, st).

(** [config.load_incluster_config()], line 47: reads the service-account
    token and the service host from the pod's files and environment, and
    raises [ConfigException] when they are missing; no call to the API. *)
Definition load_incluster_config : M unit :=
  fun e st => if in_cluster e then (Ok tt, st) else (Err ConfigException, st).

(** Lines 45-84, on the copy; [client.CoreV1Api()] (line 48) only builds
    a client object. *)
Definition mutate_copy (cfg : config) (modified_spec : json) : M json :=
  md <- lift (py_getitem modified_spec "metadata") ;;
  ann <- lift (py_getitem md "annotations") ;;
  trig <- lift (py_get ann (ca_bundle_annotation cfg)) ;;
  if is_true_string trig then
    md' <- lift (py_getitem modified_spec "metadata") ;;
    namespace <- lift (py_getitem md' "namespace") ;;
    load_incluster_config ;;;
    ensure cfg namespace ;;;
    lift (inject cfg modified_spec)
  else ret modified_spec.

(** The planning part of [mutate], lines 43-84. *)
Definition mutate_object (cfg : config) (spec : json) : M json :=
  modified_spec <- deepcopy spec ;;
  mutate_copy cfg modified_spec.

(** ** The jsonpatch library, as the handler uses it *)

Inductive patch_op : Type :=
| PAdd : string -> json -> patch_op
| PRemove : string -> patch_op
| PReplace : string -> json -> patch_op
| PMove : string -> string -> patch_op.

Class JsonPatchLib : Type := {
  from_diff : json -> json -> list patch_op;     (** [JsonPatch.from_diff(src, dst)] *)
  patch_to_string : list patch_op -> string;     (** [str(patch)], a [json.dumps] *)
  apply_patch : list patch_op -> json -> option json  (** [patch.apply(doc)] *)
}.

(** ** [base64.b64encode] *)

Definition b64_alphabet : string :=
  "ABCDEFGHIJKLMNOPQRSTUVWXYZabcdefghijklmnopqrstuvwxyz0123456789+/".

Definition b64_char (n : nat) : string :=
  match String.get n b64_alphabet with
  | Some c => String c EmptyString
  | None => EmptyString
  end.

Fixpoint b64encode (bs : list nat) : string :=
  match bs with
  | a :: b :: c :: rest =>
      b64_char (a / 4) ++ b64_char ((a mod 4) * 16 + b / 16)
      ++ b64_char ((b mod 16) * 4 + c / 64) ++ b64_char (c mod 64)
      ++ b64encode rest
  | [a; b] =>
      b64_char (a / 4) ++ b64_char ((a mod 4) * 16 + b / 16)
      ++ b64_char ((b mod 16) * 4) ++ "="
  | [a] => b64_char (a / 4) ++ b64_char ((a mod 4) * 16) ++ "=="
  | [] => EmptyString
  end.

(** [s.encode()] of the ASCII text [json.dumps] produces. *)
Definition str_encode (s : string) : list nat :=
  map Ascii.nat_of_ascii (list_ascii_of_string s).

(** ** The AdmissionReview response, lines 87-96 *)

Record review : Type := {
  apiVersion : string;
  kind : string;
  allowed : bool;
  uid : json;
  patch : string;
  patchType : string
}.

(** [mutate()], lines 41-96, on the decoded body [request.json]. *)
Definition mutate `{JsonPatchLib} (cfg : config) (body : json) : M review :=
  rq <- lift (py_getitem body "request") ;;
  spec <- lift (py_getitem rq "object") ;;
  modified_spec <- mutate_object cfg spec ;;
  let p := from_diff spec modified_spec in
  rq' <- lift (py_getitem body "request") ;;
  u <- lift (py_getitem rq' "uid") ;;
  ret {| apiVersion := "admission.k8s.io/v1";
         kind := "AdmissionReview";
         allowed := true;
         uid := u;
         patch := b64encode (str_encode (patch_to_string p));
         patchType := "JSONPatch" |}.

Example b64_empty_patch : b64encode (str_encode "[]") = "W10=".
Proof. reflexivity. Qed.

Example b64_hello : b64encode (str_encode "hello") = "aGVsbG8=".
Proof. reflexivity. Qed.

(** The cluster after one more call has been logged. *)
Definition logged (st : cluster) (c : call) : cluster :=
  {| configmaps := configmaps st; calls := calls st ++ [c] |}.

(** Number of ConfigMaps named [name] in namespace [ns]. *)
Definition cm_count (ns : json) (name : string) (st : cluster) : nat :=
  length (filter (cm_matches ns name) (configmaps st)).

(** ** Concrete inputs *)

Definition cfg0 : config :=
  {| configmap_name := "ca-bundle"; ca_bundle_filename := "ca.crt";
     ca_bundle_url := "https://pki.example/ca.pem";
     ca_bundle_annotation := "ca-bundle.nodis.com.br/inject" |}.

Definition ns1 : json := JStr "ns1".

Definition empty_cluster : cluster := {| configmaps := []; calls := [] |}.

Definition pem_bytes : list Byte.byte := list_byte_of_string "PEM".

(** Everything answers normally. *)
Definition env_ok : env :=
  {| read_fault := fun _ => None; create_fault := fun _ => None;
     create_commits := fun _ => false;
     fetch := fun _ => Response 200 pem_bytes;
     in_cluster := true; copy_headroom := 380 |}.

(** The service account may create ConfigMaps but reading them is refused. *)
Definition env_read_forbidden : env :=
  {| read_fault := fun _ => Some (ApiException 403); create_fault := fun _ => None;
     create_commits := fun _ => false;
     fetch := fun _ => Response 200 pem_bytes;
     in_cluster := true; copy_headroom := 380 |}.

(** The bundle source answers 500. *)
Definition env_fetch_500 : env :=
  {| read_fault := fun _ => None; create_fault := fun _ => None;
     create_commits := fun _ => false;
     fetch := fun _ => Response 500 [];
     in_cluster := true; copy_headroom := 380 |}.

Definition cm0 : configmap :=
  {| cm_namespace := ns1; cm_name := "ca-bundle"; cm_data := [("ca.crt", "PEM")] |}.

(** ** What the injected object looks like *)

Definition field (v : json) (k : string) : option json :=
  match v with JObj kvs => assoc k kvs | _ => None end.

(** [v['spec'][k]], when both exist. *)
Definition spec_field (v : json) (k : string) : option json :=
  match field v "spec" with Some sp => field sp k | None => None end.

(** Container [c'] is container [c] with [vm] appended at the end of its
    [volumeMounts] (a new one-element list when it had none). *)
Definition mount_added (vm : json) (c c' : json) : Prop :=
  exists kvs kvs', c = JObj kvs /\ c' = JObj kvs' /\
    (exists ms, (assoc "volumeMounts" kvs = Some (JArr ms) \/
                 (assoc "volumeMounts" kvs = None /\ ms = [])) /\
                assoc "volumeMounts" kvs' = Some (JArr (ms ++ [vm]))) /\
    (forall k, k <> "volumeMounts" -> assoc k kvs' = assoc k kvs).

(** Every container of the sequence [v] got [vm]; a sequence that is not a
    list is only accepted when it has nothing to iterate over, and is then
    left as it is. *)
Definition mounts_added (vm : json) (v v' : json) : Prop :=
  (exists l l', v = JArr l /\ v' = JArr l' /\ Forall2 (mount_added vm) l l') \/
  (py_iter v = Ok [] /\ v' = v).

(** The object's trigger annotation is the string "true". *)
Definition triggered (cfg : config) (spec : json) : Prop :=
  exists md ann, py_getitem spec "metadata" = Ok md /\
                 py_getitem md "annotations" = Ok ann /\
                 py_get ann (ca_bundle_annotation cfg) = Ok (JStr "true").

(** After the injection: [spec.volumes] is the old list (or nothing) with the
    [ca-bundle] volume appended; each init-container, when [initContainers]
    is present, and each container got [volume_mount] appended; nothing else
    of the object changed. *)
Definition bundle_injected (cfg : config) (spec m : json) : Prop :=
  (exists old, spec_field m "volumes" = Some (JArr (old ++ [ca_volume cfg])) /\
     (spec_field spec "volumes" = Some (JArr old) \/
      (spec_field spec "volumes" = None /\ old = []))) /\
  ((spec_field spec "initContainers" = None /\ spec_field m "initContainers" = None) \/
   exists ics ics', spec_field spec "initContainers" = Some ics /\
     spec_field m "initContainers" = Some ics' /\ mounts_added (ca_volume_mount cfg) ics ics') /\
  (exists cs cs', spec_field spec "containers" = Some cs /\
     spec_field m "containers" = Some cs' /\ mounts_added (ca_volume_mount cfg) cs cs') /\
  (forall k, k <> "spec" -> field m k = field spec k) /\
  (forall k, k <> "volumes" -> k <> "initContainers" -> k <> "containers" ->
     spec_field m k = spec_field spec k).

(** The object's trigger annotation is present as a mapping entry (or
    absent) and is not the string "true". *)
Definition untriggered (cfg : config) (spec : json) : Prop :=
  exists md ann t, py_getitem spec "metadata" = Ok md /\
                   py_getitem md "annotations" = Ok ann /\
                   py_get ann (ca_bundle_annotation cfg) = Ok t /\
                   is_true_string t = false.

(** A stand-in for the jsonpatch library for concrete runs: a diff of equal
    documents is empty, any other diff replaces the whole document. *)
Definition dq : string := String (ascii_of_nat 34) EmptyString.

Definition quoted (s : string) : string := (dq ++ s ++ dq)%string.

Definition op_to_string (op : patch_op) : string :=
  let entry (k v : string) : string := (quoted k ++ ": " ++ quoted v)%string in
  match op with
  | PAdd p _ => "{" ++ entry "op" "add" ++ ", " ++ entry "path" p ++ ", ...}"
  | PRemove p => "{" ++ entry "op" "remove" ++ ", " ++ entry "path" p ++ "}"
  | PReplace p _ => "{" ++ entry "op" "replace" ++ ", " ++ entry "path" p ++ ", ...}"
  | PMove f p => "{" ++ entry "op" "move" ++ ", " ++ entry "from" f ++ ", "
                   ++ entry "path" p ++ "}"
  end.

Fixpoint apply_whole (ops : list patch_op) (doc : json) : option json :=
  match ops with
  | [] => Some doc
  | PReplace "" v :: ops' => apply_whole ops' v
  | _ :: _ => None
  end.

#[local] Instance whole_doc_patch : JsonPatchLib := {
  from_diff a b := if json_eqb a b then [] else [PReplace "" b];
  patch_to_string ops := ("[" ++ String.concat ", " (map op_to_string ops) ++ "]")%string;
  apply_patch := apply_whole
}.

(** Request bodies. *)
Definition annotations_true : json := JObj [(ca_bundle_annotation cfg0, JStr "true")].

Definition pod_ns1 : json :=
  JObj [("metadata", JObj [("annotations", annotations_true); ("namespace", ns1)]);
        ("spec", JObj [("containers", JArr [JObj [("name", JStr "app")]])])].

Definition review_body (uid : json) (obj : json) : json :=
  JObj [("request", JObj [("uid", uid); ("object", obj)])].

(** The body of test_mutate_with_no_data (src/src/test_app.py). *)
Definition body_no_data : json := review_body (JNum 1) (JObj []).

(** The body of test_mutate_with_data. *)
Definition body_labels_only : json :=
  review_body (JNum 1) (JObj [("metadata", JObj [("labels", JObj [])])]).

(** A triggered object whose [spec] has no [containers]. *)
Definition body_no_containers : json :=
  review_body (JNum 1)
    (JObj [("metadata", JObj [("annotations", annotations_true); ("namespace", ns1)]);
           ("spec", JObj [])]).

Definition body_pod_ns1 : json := review_body (JStr "u-1") pod_ns1.

(** ** The handler's objects on a heap

    [copy.deepcopy] and the in-place updates of lines 68-84 act on Python
    objects: dicts and lists live in a heap and are shared by reference.
    This model follows the planning part of [mutate] (lines 42-84) at that
    level.  Provisioning does not touch these objects; its outcome on the
    namespace is a parameter. *)
Module Heap.

Inductive hval : Type :=
| HNull : hval
| HBool : bool -> hval
| HNum : Z -> hval
| HStr : string -> hval
| HRef : nat -> hval.

Inductive hobj : Type :=
| ODict : list (string * hval) -> hobj
| OList : list hval -> hobj.

Record heap : Type := {
  mem : nat -> option hobj;
  next : nat                     (** first location never allocated *)
}.

Definition HM (A : Type) : Type := heap -> res A * heap.

Definition hret {A} (a : A) : HM A := fun h => (Ok a, h).
Definition hraise {A} (x : exc) : HM A := fun h => (Err x, h).
Definition hbind {A B} (m : HM A) (f : A -> HM B) : HM B :=
  fun h => match m h with
           | (Ok a, h') => f a h'
           | (Err x, h') => (Err x, h')
           end.
Definition hlift {A} (r : res A) : HM A := fun h => (r, h).

Notation "'let!' x := m 'in' k" := (hbind m (fun x => k))
  (at level 200, x name, m at level 100, k at level 200).

Fixpoint lookup_key {V} (k : string) (kvs : list (string * V)) : option V :=
  match kvs with
  | [] => None
  | (k', v) :: kvs' => if String.eqb k k' then Some v else lookup_key k kvs'
  end.

Fixpoint set_key {V} (k : string) (v : V) (kvs : list (string * V)) : list (string * V) :=
  match kvs with
  | [] => [(k, v)]
  | (k', v') :: kvs' =>
      if String.eqb k k' then (k', v) :: kvs' else (k', v') :: set_key k v kvs'
  end.

(** A new object at the first free location. *)
Definition alloc (o : hobj) : HM nat :=
  fun h => (Ok (next h),
            {| mem := fun l => if Nat.eqb l (next h) then Some o else mem h l;
               next := S (next h) |}).

(** Overwrite the object at [l] in place. *)
Definition write (l : nat) (o : hobj) : HM unit :=
  fun h => (Ok tt, {| mem := fun l' => if Nat.eqb l' l then Some o else mem h l';
                      next := next h |}).

(** The dict [v] refers to, or [err]. *)
Definition as_dict (err : exc) (v : hval) : HM (nat * list (string * hval)) :=
  match v with
  | HRef l => fun h => match mem h l with
                       | Some (ODict kvs) => (Ok (l, kvs), h)
                       | _ => (Err err, h)
                       end
  | _ => hraise err
  end.

(** [v[k]] *)
Definition getitem (v : hval) (k : string) : HM hval :=
  let! d := as_dict TypeError v in
  match lookup_key k (snd d) with Some x => hret x | None => hraise (KeyError k) end.

(** [v.get(k)] *)
Definition get (v : hval) (k : string) : HM hval :=
  let! d := as_dict AttributeError v in
  match lookup_key k (snd d) with Some x => hret x | None => hret HNull end.

(** [k in v] (see [py_contains] for non-dicts) *)
Definition contains (v : hval) (k : string) : HM bool :=
  let! d := as_dict TypeError v in
  match lookup_key k (snd d) with Some _ => hret true | None => hret false end.

(** [v[k] = x] *)
Definition setitem (v : hval) (k : string) (x : hval) : HM unit :=
  let! d := as_dict TypeError v in
  write (fst d) (ODict (set_key k x (snd d))).

(** [v.append(x)] *)
Definition append (v : hval) (x : hval) : HM unit :=
  match v with
  | HRef l => fun h => match mem h l with
                       | Some (OList items) => write l (OList (items ++ [x])) h
                       | _ => (Err AttributeError, h)
                       end
  | _ => hraise AttributeError
  end.

Fixpoint hchars (s : string) : list hval :=
  match s with
  | EmptyString => []
  | String c s' => HStr (String c EmptyString) :: hchars s'
  end.

(** The elements [for c in v] visits. *)
Definition iter (v : hval) : HM (list hval) :=
  match v with
  | HRef l => fun h => match mem h l with
                       | Some (OList items) => (Ok items, h)
                       | Some (ODict kvs) => (Ok (map (fun kv => HStr (fst kv)) kvs), h)
                       | None => (Err TypeError, h)
                       end
  | HStr s => hret (hchars s)
  | _ => hraise TypeError
  end.

Fixpoint hmapM {A B} (f : A -> HM B) (l : list A) : HM (list B) :=
  match l with
  | [] => hret []
  | x :: l' => let! y := f x in let! ys := hmapM f l' in hret (y :: ys)
  end.

Fixpoint hforM {A} (f : A -> HM unit) (l : list A) : HM unit :=
  match l with
  | [] => hret tt
  | x :: l' => let! u := f x in hforM f l'
  end.

(** [copy.deepcopy(v)]; [fuel] bounds the nesting depth, past which Python
    raises [RecursionError].  A parsed JSON body has no shared objects, so
    deepcopy's memo table, which keeps sharing, plays no part. *)
Fixpoint deepcopy (fuel : nat) (v : hval) : HM hval :=
  match v with
  | HRef l =>
      match fuel with
      | 0 => hraise RecursionError
      | S n =>
          fun h =>
            match mem h l with
            | Some (ODict kvs) =>
                (let! kvs' := hmapM (fun kv => let! x := deepcopy n (snd kv) in
                                               hret (fst kv, x)) kvs in
                 let! l' := alloc (ODict kvs') in
                 hret (HRef l')) h
            | Some (OList items) =>
                (let! items' := hmapM (deepcopy n) items in
                 let! l' := alloc (OList items') in
                 hret (HRef l')) h
            | None => (Err TypeError, h)
            end
      end
  | _ => hret v
  end.

Definition is_true_h (v : hval) : bool :=
  match v with HStr s => String.eqb s "true" | _ => false end.

(** Lines 75-78 (and 81-84) for one container [c]. *)
Definition mount_one (volume_mount : hval) (c : hval) : HM unit :=
  let! has := contains c "volumeMounts" in
  if has then
    let! vms := getitem c "volumeMounts" in
    append vms volume_mount
  else
    let! lst := alloc (OList [volume_mount]) in
    setitem c "volumeMounts" (HRef lst).

(** Lines 42-84: [spec] is [request.json['request']['object']]; when the
    object is triggered, [provision namespace] is the outcome of lines
    47-53 for its namespace. *)
Definition plan (cfg : config) (provision : hval -> res unit) (fuel : nat) (spec : hval)
  : HM hval :=
  let! modified_spec := deepcopy fuel spec in
  let! md := getitem modified_spec "metadata" in
  let! ann := getitem md "annotations" in
  let! trig := get ann (ca_bundle_annotation cfg) in
  if is_true_h trig then
    let! md' := getitem modified_spec "metadata" in
    let! namespace := getitem md' "namespace" in
    let! u := hlift (provision namespace) in
    let! cm := alloc (ODict [("name", HStr (configmap_name cfg)); ("defaultMode", HNum 420)]) in
    let! volume := alloc (ODict [("name", HStr "ca-bundle"); ("configMap", HRef cm)]) in
    let! volume_mount :=
      alloc (ODict [("name", HStr "ca-bundle");
                    ("mountPath", HStr ("/etc/ssl/certs/" ++ ca_bundle_filename cfg));
                    ("subPath", HStr (ca_bundle_filename cfg))]) in
    let! sp := getitem modified_spec "spec" in
    let! has_vols := contains sp "volumes" in
    let! u :=
      (if has_vols then
         let! sp := getitem modified_spec "spec" in
         let! vols := getitem sp "volumes" in
         append vols (HRef volume)
       else
         let! lst := alloc (OList [HRef volume]) in
         let! sp := getitem modified_spec "spec" in
         setitem sp "volumes" (HRef lst)) in
    let! sp := getitem modified_spec "spec" in
    let! has_init := contains sp "initContainers" in
    let! u :=
      (if has_init then
         let! sp := getitem modified_spec "spec" in
         let! ics := getitem sp "initContainers" in
         let! items := iter ics in
         hforM (mount_one (HRef volume_mount)) items
       else hret tt) in
    let! sp := getitem modified_spec "spec" in
    let! cs := getitem sp "containers" in
    let! items := iter cs in
    let! u := hforM (mount_one (HRef volume_mount)) items in
    hret modified_spec
  else hret modified_spec.

(** Reading a value back as JSON ([k] bounds the depth). *)
Fixpoint omap {A B} (f : A -> option B) (l : list A) : option (list B) :=
  match l with
  | [] => Some []
  | x :: l' => match f x, omap f l' with
               | Some y, Some ys => Some (y :: ys)
               | _, _ => None
               end
  end.

Fixpoint readback (k : nat) (h : heap) (v : hval) : option json :=
  match v with
  | HNull => Some JNull
  | HBool b => Some (JBool b)
  | HNum z => Some (JNum z)
  | HStr s => Some (JStr s)
  | HRef l =>
      match k with
      | 0 => None
      | S k' =>
          match mem h l with
          | Some (ODict kvs) =>
              option_map JObj
                (omap (fun kv => option_map (fun j => (fst kv, j)) (readback k' h (snd kv))) kvs)
          | Some (OList items) => option_map JArr (omap (readback k' h) items)
          | None => None
          end
      end
  end.

(** Locations referred to by a value lie below [n] / at or above [n]. *)
Definition below (n : nat) (v : hval) : Prop :=
  match v with HRef l => l < n | _ => True end.

Definition above (n : nat) (v : hval) : Prop :=
  match v with HRef l => n <= l | _ => True end.

Definition obj_vals (o : hobj) : list hval :=
  match o with ODict kvs => map snd kvs | OList items => items end.

(** Every object lies below [next] and refers only to allocated objects:
    what [json.loads] builds. *)
Definition wf (h : heap) : Prop :=
  forall l o, mem h l = Some o -> l < next h /\ Forall (below (next h)) (obj_vals o).

(** [h] extends [h0]: nothing below [next h0] changed. *)
Definition ext (h0 h : heap) : Prop :=
  next h0 <= next h /\ (forall l, l < next h0 -> mem h l = mem h0 l).

(** Relative to the heap [h0] the handler started from, [h] changed nothing
    below [n0], and every object at [n0] or above refers only to locations
    at [n0] or above. *)
Definition frame (n0 : nat) (h0 h : heap) : Prop :=
  n0 <= next h /\ (forall l, l < n0 -> mem h l = mem h0 l) /\
  (forall l o, n0 <= l -> mem h l = Some o -> Forall (above n0) (obj_vals o)).

(** A computation keeps [frame n0 h0] and its results satisfy [P]. *)
Definition safe {A} (n0 : nat) (h0 : heap) (m : HM A) (P : A -> Prop) : Prop :=
  forall h r h', frame n0 h0 h -> m h = (r, h') ->
    frame n0 h0 h' /\ (forall a, r = Ok a -> P a).

(** [json.loads]: a parsed JSON value as fresh heap objects. *)
Fixpoint alloc_json (j : json) : HM hval :=
  match j with
  | JNull => hret HNull
  | JBool b => hret (HBool b)
  | JNum z => hret (HNum z)
  | JStr s => hret (HStr s)
  | JArr l =>
      let! vs := (fix go (l : list json) : HM (list hval) :=
                    match l with
                    | [] => hret []
                    | x :: l' => let! v := alloc_json x in let! vs := go l' in hret (v :: vs)
                    end) l in
      let! r := alloc (OList vs) in hret (HRef r)
  | JObj kvs =>
      let! vs := (fix go (kvs : list (string * json)) : HM (list (string * hval)) :=
                    match kvs with
                    | [] => hret []
                    | (k, x) :: kvs' =>
                        let! v := alloc_json x in let! vs := go kvs' in hret ((k, v) :: vs)
                    end) kvs in
      let! r := alloc (ODict vs) in hret (HRef r)
  end.

Definition empty_heap : heap := {| mem := fun _ => None; next := 0 |}.

(** A pod opted out of the injection, as [json.loads] leaves it on the heap. *)
Definition pod_opted_out : json :=
  JObj [("metadata", JObj [("annotations",
                            JObj [(ca_bundle_annotation cfg0, JStr "false")])]);
        ("spec", JObj [("containers", JArr [JObj [("name", JStr "app")]])])].

Definition opted_out_heap : heap := snd (alloc_json pod_opted_out empty_heap).

Definition opted_out_spec : hval :=
  match fst (alloc_json pod_opted_out empty_heap) with Ok v => v | Err _ => HNull end.

End Heap.

(** ** Reading the base64 of line 93 back

    A strict decoder for padded base64 over the standard alphabet (RFC 4648),
    as the consumer of the patch field (the API server) reads it. *)

Fixpoint index_in (c : ascii) (s : string) (i : nat) : option nat :=
  match s with
  | EmptyString => None
  | String c' s' => if Ascii.eqb c c' then Some i else index_in c s' (S i)
  end.

Definition b64_index (c : ascii) : option nat := index_in c b64_alphabet 0.

Definition pad : ascii := "="%char.

Fixpoint b64decode (s : string) : option (list nat) :=
  match s with
  | EmptyString => Some []
  | String c1 (String c2 (String c3 (String c4 rest))) =>
      match b64_index c1, b64_index c2, b64_index c3, b64_index c4 with
      | Some i1, Some i2, Some i3, Some i4 =>
          option_map (fun r => [i1 * 4 + i2 / 16; (i2 mod 16) * 16 + i3 / 4;
                                (i3 mod 4) * 64 + i4] ++ r)
                     (b64decode rest)
      | Some i1, Some i2, Some i3, None =>
          if Ascii.eqb c4 pad && String.eqb rest EmptyString
          then Some [i1 * 4 + i2 / 16; (i2 mod 16) * 16 + i3 / 4] else None
      | Some i1, Some i2, None, None =>
          if Ascii.eqb c3 pad && Ascii.eqb c4 pad && String.eqb rest EmptyString
          then Some [i1 * 4 + i2 / 16] else None
      | _, _, _, _ => None
      end
  | _ => None
  end.

(** A character [b64encode] may write. *)
Definition b64_out_char (c : ascii) : bool :=
  match b64_index c with Some _ => true | None => Ascii.eqb c pad end.

(** ** When lines 68-84 can run to the end

    [container_ok c]: the loop body of lines 75-78 / 81-84 succeeds on [c]:
    [c] is a dict whose [volumeMounts], if present, is a list.
    [loop_ok v]: [for c in v] with that body succeeds: [v] is a list of such
    containers, or an empty dict or string (nothing to iterate). *)
Definition container_ok (c : json) : bool :=
  match c with
  | JObj kvs => match assoc "volumeMounts" kvs with
                | None | Some (JArr _) => true
                | Some _ => false
                end
  | _ => false
  end.

Definition loop_ok (v : json) : bool :=
  match v with
  | JArr l => forallb container_ok l
  | JObj [] => true
  | JStr EmptyString => true
  | _ => false
  end.

Definition inject_ready (spec : json) : bool :=
  match spec with
  | JObj kvs =>
      match assoc "spec" kvs with
      | Some (JObj skvs) =>
          match assoc "volumes" skvs with None | Some (JArr _) => true | Some _ => false end &&
          match assoc "initContainers" skvs with None => true | Some ics => loop_ok ics end &&
          match assoc "containers" skvs with None => false | Some cs => loop_ok cs end
      | _ => false
      end
  | _ => false
  end.

(** The ConfigMap [create_configmap] builds for namespace [ns] from the
    decoded bundle [data] (lines 27-37). *)
Definition bundle_configmap (cfg : config) (ns : json) (data : string) : configmap :=
  {| cm_namespace := ns; cm_name := configmap_name cfg;
     cm_data := [(ca_bundle_filename cfg, data)] |}.

(** The calls one [ensure cfg ns] can make, as far as it gets. *)
Definition ensure_trace (cfg : config) (ns : json) (t : list call) : Prop :=
  t = [CallRead ns (configmap_name cfg)] \/
  t = [CallRead ns (configmap_name cfg); CallFetch (ca_bundle_url cfg)] \/
  t = [CallRead ns (configmap_name cfg); CallFetch (ca_bundle_url cfg);
       CallCreate ns (configmap_name cfg)].

(** The namespace field of the object of an AdmissionReview body. *)
Definition body_namespace (body : json) : res json :=
  rq <-? py_getitem body "request" ;
  spec <-? py_getitem rq "object" ;
  md <-? py_getitem spec "metadata" ;
  py_getitem md "namespace".

(** Concrete inputs for the extra properties. *)
Definition env_latin1 : env :=
  {| read_fault := fun _ => None; create_fault := fun _ => None;
     create_commits := fun _ => false;
     fetch := fun _ => Response 200 [Byte.xe9];
     in_cluster := true; copy_headroom := 380 |}.

(** The create times out after the API server has stored the ConfigMap. *)
Definition env_create_timeout : env :=
  {| read_fault := fun _ => None; create_fault := fun _ => Some (ApiException 504);
     create_commits := fun _ => true;
     fetch := fun _ => Response 200 pem_bytes;
     in_cluster := true; copy_headroom := 380 |}.



(** [n] nested JSON lists around an empty one: [[[...[]...]]]. *)
Fixpoint nested_list (n : nat) : json :=
  match n with
  | O => JArr []
  | S n' => JArr [nested_list n']
  end.

(** An object without [metadata] whose [spec] holds 600 nested lists; the
    body is 600 levels deep inside the object, which [json.loads] parses. *)
Definition body_deep : json := review_body (JNum 1) (JObj [("spec", nested_list 599)]).

(** * Properties *)

Lemma json_eqb_refl : forall j, json_eqb j j = true.
Proof.
  fix IH 1. intros [| b | z | s | l | kvs]; simpl.
  - reflexivity.
  - destruct b; reflexivity.
  - apply Z.eqb_refl.
  - apply String.eqb_refl.
  - induction l as [| x l IHl]; [reflexivity |]. rewrite IH, IHl. reflexivity.
  - induction kvs as [| [k x] kvs IHk]; [reflexivity |].
    rewrite String.eqb_refl, IH, IHk. reflexivity.
Qed.

(** ** Provisioning *)

Section Provisioning.

Variable cfg : config.

Lemma read_outcome : forall ns e st,
  read_namespaced_config_map ns (configmap_name cfg) e st =
  (match read_fault e ns with
   | Some x => Err x
   | None => if cm_exists ns (configmap_name cfg) st then Ok tt else Err (ApiException 404)
   end, logged st (CallRead ns (configmap_name cfg))).
Proof.
  intros ns e st. unfold read_namespaced_config_map, bind, log, logged, cm_exists; simpl.
  destruct (read_fault e ns); [reflexivity |].
  destruct (existsb _ _); reflexivity.
Qed.

Lemma create_configmap_fetch_fails : forall ns e st s body,
  fetch e (ca_bundle_url cfg) = Response s body -> s <> 200%Z ->
  create_configmap cfg ns e st =
  (Err (FetchException (ca_bundle_url cfg) s), logged st (CallFetch (ca_bundle_url cfg))).
Proof.
  intros ns e st s body Hf Hs.
  unfold create_configmap, requests_get, bind, log, logged; simpl. rewrite Hf.
  destruct (Z.eqb_spec s 200); [contradiction | reflexivity].
Qed.

Lemma create_configmap_409 : forall ns e st body data,
  fetch e (ca_bundle_url cfg) = Response 200 body -> decode_ascii body = Ok data ->
  create_fault e ns = None -> cm_exists ns (configmap_name cfg) st = true ->
  create_configmap cfg ns e st =
    (Err (ApiException 409),
     logged (logged st (CallFetch (ca_bundle_url cfg))) (CallCreate ns (configmap_name cfg))).
Proof.
  intros ns e st body data Hf Hd Hc Hex.
  unfold create_configmap, requests_get, create_namespaced_config_map,
    bind, log, lift, raise, logged; simpl.
  rewrite Hf. simpl. rewrite Hd, Hc. unfold cm_exists in *. simpl. rewrite Hex. reflexivity.
Qed.

End Provisioning.

Lemma filter_nil_of_existsb : forall {A} (f : A -> bool) l,
  existsb f l = false -> filter f l = [].
Proof.
  intros A f l; induction l as [| x l IH]; simpl; [reflexivity |].
  destruct (f x); simpl; [discriminate | exact IH].
Qed.

Lemma filter_length_of_existsb : forall {A} (f : A -> bool) l,
  existsb f l = true -> 1 <= length (filter f l).
Proof.
  intros A f l; induction l as [| x l IH]; simpl; [discriminate |].
  destruct (f x); simpl; [lia | exact IH].
Qed.

Lemma create_configmap_ok : forall cfg ns e st st',
  create_configmap cfg ns e st = (Ok tt, st') ->
  cm_exists ns (configmap_name cfg) st = false /\
  exists cm, cm_namespace cm = ns /\ cm_name cm = configmap_name cfg /\
             configmaps st' = configmaps st ++ [cm].
Proof.
  intros cfg ns e st st' H.
  unfold create_configmap, requests_get, create_namespaced_config_map,
    bind, log, lift, raise in H; simpl in H.
  destruct (fetch e (ca_bundle_url cfg)) as [s body | x]; [| discriminate].
  destruct (s =? 200)%Z; simpl in H; [| discriminate].
  destruct (decode_ascii body) as [bundle | x]; [| discriminate].
  destruct (create_fault e ns); [destruct (_ && _); discriminate |].
  unfold cm_exists in *; simpl in H.
  destruct (existsb _ _) eqn:Hex; [discriminate |].
  injection H as <-. split; [reflexivity |].
  eexists; repeat split; reflexivity.
Qed.

Lemma cm_matches_self : forall cm, cm_matches (cm_namespace cm) (cm_name cm) cm = true.
Proof.
  intros cm. unfold cm_matches. rewrite json_eqb_refl, String.eqb_refl. reflexivity.
Qed.

(** ** C1: every [ApiException] of the read is taken as absence *)

(** C1 (amended): when the existence read raises [x], [ensure] goes on to
    [create_configmap] (which fetches the bundle and creates the ConfigMap)
    whenever [x] is an [ApiException] of any status, not only 404; only a
    failure of another kind (e.g. a connection error) propagates, right after
    the read, with no fetch and no create. *)
Theorem ensure_read_error_dispatch : forall cfg ns e st x st1,
  read_namespaced_config_map ns (configmap_name cfg) e st = (Err x, st1) ->
  st1 = logged st (CallRead ns (configmap_name cfg)) /\
  ensure cfg ns e st =
    match x with
    | ApiException _ => create_configmap cfg ns e st1
    | _ => (Err x, st1)
    end.
Proof.
  intros cfg ns e st x st1 H.
  rewrite read_outcome in H. injection H as Hx <-. split; [reflexivity |].
  unfold ensure. rewrite read_outcome.
  destruct (read_fault e ns) as [y |].
  - injection Hx as ->. destruct x; reflexivity.
  - destruct (cm_exists _ _ _); [discriminate |]. injection Hx as <-. reflexivity.
Qed.

Lemma ensure_read_error_dispatch_witness :
  read_namespaced_config_map ns1 "ca-bundle" env_read_forbidden empty_cluster =
    (Err (ApiException 403), logged empty_cluster (CallRead ns1 "ca-bundle")) /\
  logged empty_cluster (CallRead ns1 "ca-bundle")
    = logged empty_cluster (CallRead ns1 (configmap_name cfg0)) /\
  ensure cfg0 ns1 env_read_forbidden empty_cluster =
    create_configmap cfg0 ns1 env_read_forbidden
      (logged empty_cluster (CallRead ns1 "ca-bundle")).
Proof.
  assert (H : read_namespaced_config_map ns1 (configmap_name cfg0) env_read_forbidden
                empty_cluster =
              (Err (ApiException 403), logged empty_cluster (CallRead ns1 "ca-bundle")))
    by reflexivity.
  exact (conj H (ensure_read_error_dispatch cfg0 ns1 env_read_forbidden
                   empty_cluster (ApiException 403) _ H)).
Defined.

(** C1 (counterexample): a read refused with 403 on a namespace without the
    ConfigMap does not make [ensure] fail: it fetches the bundle, creates the
    ConfigMap and returns normally. *)
Lemma ensure_forbidden_read_creates :
  ensure cfg0 ns1 env_read_forbidden empty_cluster =
  (Ok tt, {| configmaps := [cm0];
             calls := [CallRead ns1 "ca-bundle"; CallFetch "https://pki.example/ca.pem";
                       CallCreate ns1 "ca-bundle"] |}).
Proof. reflexivity. Qed.

(** ** C3: idempotence rests on the read, a 409 is not swallowed *)

(** C3 (amended): a create refused because the ConfigMap already exists
    is not swallowed: when the read of the namespace raises an
    [ApiException] while the ConfigMap exists, [ensure] fetches the bundle,
    its create is refused with a 409 and that [ApiException] propagates.
    Idempotence comes only from the read: when reads of the namespace do not
    fail for a reason of their own, at most one ConfigMap of that name is
    present (the API server keeps names unique in a namespace) and the first
    [ensure] returns normally, the second [ensure] returns normally after
    only its read, changes no ConfigMap, and exactly one ConfigMap of that
    name is present. *)
Theorem ensure_twice_readable :
  (forall cfg ns e st s body data,
     read_fault e ns = Some (ApiException s) ->
     fetch e (ca_bundle_url cfg) = Response 200 body -> decode_ascii body = Ok data ->
     create_fault e ns = None -> cm_exists ns (configmap_name cfg) st = true ->
     ensure cfg ns e st =
       (Err (ApiException 409),
        logged (logged (logged st (CallRead ns (configmap_name cfg)))
                  (CallFetch (ca_bundle_url cfg)))
          (CallCreate ns (configmap_name cfg)))) /\
  (forall cfg ns e st st1,
     read_fault e ns = None ->
     cm_count ns (configmap_name cfg) st <= 1 ->
     ensure cfg ns e st = (Ok tt, st1) ->
     ensure cfg ns e st1 = (Ok tt, logged st1 (CallRead ns (configmap_name cfg))) /\
     cm_count ns (configmap_name cfg) st1 = 1).
Proof.
  split.
  { intros cfg ns e st s body data Hrf Hf Hd Hc Hex.
    unfold ensure. rewrite read_outcome, Hrf.
    apply (create_configmap_409 cfg ns e _ body data Hf Hd Hc).
    exact Hex. }
  intros cfg ns e st st1 Hrf Hle H1.
  assert (Hex1 : cm_exists ns (configmap_name cfg) st1 = true /\
                 cm_count ns (configmap_name cfg) st1 = 1).
  { unfold ensure in H1. rewrite read_outcome, Hrf in H1.
    unfold cm_count in *.
    destruct (cm_exists ns (configmap_name cfg) st) eqn:Hex.
    - injection H1 as <-. unfold logged; simpl. split; [exact Hex |].
      pose proof (filter_length_of_existsb _ _ Hex). lia.
    - apply create_configmap_ok in H1 as [Hnot [cm [Hns [Hnm Hcms]]]].
      unfold cm_exists, logged in Hnot; simpl in Hnot.
      unfold cm_exists. rewrite Hcms, existsb_app, filter_app; simpl (configmaps (logged _ _)).
      rewrite Hnot, (filter_nil_of_existsb _ _ Hnot); simpl.
      rewrite <- Hns, <- Hnm, cm_matches_self. split; reflexivity. }
  destruct Hex1 as [Hex1 Hc1]. split; [| exact Hc1].
  unfold ensure. rewrite read_outcome, Hrf, Hex1. reflexivity.
Qed.

Lemma ensure_twice_readable_witness :
  (let st := {| configmaps := [cm0]; calls := [] |} in
   read_fault env_read_forbidden ns1 = Some (ApiException 403) /\
   fetch env_read_forbidden (ca_bundle_url cfg0) = Response 200 pem_bytes /\
   decode_ascii pem_bytes = Ok "PEM" /\
   create_fault env_read_forbidden ns1 = None /\
   cm_exists ns1 (configmap_name cfg0) st = true /\
   ensure cfg0 ns1 env_read_forbidden st =
     (Err (ApiException 409),
      logged (logged (logged st (CallRead ns1 (configmap_name cfg0)))
                (CallFetch (ca_bundle_url cfg0)))
        (CallCreate ns1 (configmap_name cfg0)))) /\
  (read_fault env_ok ns1 = None /\
  cm_count ns1 "ca-bundle" empty_cluster <= 1 /\
  ensure cfg0 ns1 env_ok empty_cluster =
    (Ok tt, {| configmaps := [cm0];
               calls := [CallRead ns1 "ca-bundle"; CallFetch "https://pki.example/ca.pem";
                         CallCreate ns1 "ca-bundle"] |}) /\
  (ensure cfg0 ns1 env_ok
     {| configmaps := [cm0];
        calls := [CallRead ns1 "ca-bundle"; CallFetch "https://pki.example/ca.pem";
                  CallCreate ns1 "ca-bundle"] |} =
   (Ok tt, logged {| configmaps := [cm0];
                     calls := [CallRead ns1 "ca-bundle";
                               CallFetch "https://pki.example/ca.pem";
                               CallCreate ns1 "ca-bundle"] |}
             (CallRead ns1 (configmap_name cfg0))) /\
   cm_count ns1 (configmap_name cfg0)
     {| configmaps := [cm0];
        calls := [CallRead ns1 "ca-bundle"; CallFetch "https://pki.example/ca.pem";
                  CallCreate ns1 "ca-bundle"] |} = 1)).
Proof.
  split.
  { intros st.
    assert (G1 : read_fault env_read_forbidden ns1 = Some (ApiException 403)) by reflexivity.
    assert (G2 : fetch env_read_forbidden (ca_bundle_url cfg0) = Response 200 pem_bytes)
      by reflexivity.
    assert (G3 : decode_ascii pem_bytes = Ok "PEM") by reflexivity.
    assert (G4 : create_fault env_read_forbidden ns1 = None) by reflexivity.
    assert (G5 : cm_exists ns1 (configmap_name cfg0) st = true) by reflexivity.
    exact (conj G1 (conj G2 (conj G3 (conj G4 (conj G5
             (proj1 ensure_twice_readable cfg0 ns1 env_read_forbidden st 403%Z
                pem_bytes "PEM" G1 G2 G3 G4 G5)))))). }
  assert (H1 : read_fault env_ok ns1 = None) by reflexivity.
  assert (H2 : cm_count ns1 (configmap_name cfg0) empty_cluster <= 1)
    by (vm_compute; lia).
  assert (H3 : ensure cfg0 ns1 env_ok empty_cluster =
    (Ok tt, {| configmaps := [cm0];
               calls := [CallRead ns1 "ca-bundle"; CallFetch "https://pki.example/ca.pem";
                         CallCreate ns1 "ca-bundle"] |})) by reflexivity.
  exact (conj H1 (conj H2 (conj H3
           (proj2 ensure_twice_readable cfg0 ns1 env_ok empty_cluster _ H1 H2 H3)))).
Defined.

(** C3 (counterexample): with reads refused (403), the first [ensure] creates
    the ConfigMap and the second one, finding the read refused again, tries
    to create it a second time; the API server's already-exists rejection
    (409) is not swallowed and the second call raises. *)
Lemma ensure_twice_forbidden_read_raises :
  let (r1, st1) := ensure cfg0 ns1 env_read_forbidden empty_cluster in
  let (r2, _) := ensure cfg0 ns1 env_read_forbidden st1 in
  r1 = Ok tt /\ r2 = Err (ApiException 409).
Proof. vm_compute. split; reflexivity. Qed.

(** ** C6: a failed fetch creates nothing *)

(** C6: when the bundle URL answers a status other than 200,
    [create_configmap] raises the fetch exception right after the fetch,
    before any create; and [ensure] then leaves the ConfigMaps unchanged,
    returning normally only when the read found the ConfigMap. *)
Theorem fetch_failure_creates_nothing : forall cfg ns e st s body,
  fetch e (ca_bundle_url cfg) = Response s body -> s <> 200%Z ->
  create_configmap cfg ns e st =
    (Err (FetchException (ca_bundle_url cfg) s), logged st (CallFetch (ca_bundle_url cfg))) /\
  forall r st', ensure cfg ns e st = (r, st') ->
    configmaps st' = configmaps st /\
    (r = Ok tt \/ r = Err (FetchException (ca_bundle_url cfg) s) \/
     exists x, r = Err x /\ read_fault e ns = Some x).
Proof.
  intros cfg ns e st s body Hf Hs.
  pose proof (create_configmap_fetch_fails cfg ns e st s body Hf Hs) as Hc.
  split; [exact (Hc) |].
  intros r st' H. unfold ensure in H. rewrite read_outcome in H.
  destruct (read_fault e ns) as [x |] eqn:Hrf.
  - destruct x; try (injection H as <- <-; split; [reflexivity | right; right; eauto]).
    rewrite create_configmap_fetch_fails with (s := s) (body := body) in H by assumption.
    injection H as <- <-. split; [reflexivity | right; left; reflexivity].
  - destruct (cm_exists _ _ _).
    + injection H as <- <-. split; [reflexivity | left; reflexivity].
    + rewrite create_configmap_fetch_fails with (s := s) (body := body) in H by assumption.
      injection H as <- <-. split; [reflexivity | right; left; reflexivity].
Qed.

Lemma fetch_failure_creates_nothing_witness :
  fetch env_fetch_500 (ca_bundle_url cfg0) = Response 500 [] /\ (500 <> 200)%Z /\
  create_configmap cfg0 ns1 env_fetch_500 empty_cluster =
    (Err (FetchException (ca_bundle_url cfg0) 500),
     logged empty_cluster (CallFetch (ca_bundle_url cfg0))) /\
  forall r st', ensure cfg0 ns1 env_fetch_500 empty_cluster = (r, st') ->
    configmaps st' = configmaps empty_cluster /\
    (r = Ok tt \/ r = Err (FetchException (ca_bundle_url cfg0) 500) \/
     exists x, r = Err x /\ read_fault env_fetch_500 ns1 = Some x).
Proof.
  assert (H1 : fetch env_fetch_500 (ca_bundle_url cfg0) = Response 500 []) by reflexivity.
  assert (H2 : (500 <> 200)%Z) by lia.
  exact (conj H1 (conj H2
    (fetch_failure_creates_nothing cfg0 ns1 env_fetch_500 empty_cluster 500 [] H1 H2))).
Defined.

(** ** The Python primitives, inverted *)

Lemma getitem_ok : forall v k x,
  py_getitem v k = Ok x -> exists kvs, v = JObj kvs /\ assoc k kvs = Some x.
Proof.
  intros v k x H; destruct v; try discriminate. simpl in H.
  destruct (assoc k _) eqn:E; [injection H as <-; eauto | discriminate].
Qed.

Lemma contains_ok : forall v k b,
  py_contains v k = Ok b ->
  exists kvs, v = JObj kvs /\
    (if b then exists x, assoc k kvs = Some x else assoc k kvs = None).
Proof.
  intros v k b H; destruct v; try discriminate. simpl in H.
  destruct (assoc k _) eqn:E; injection H as <-; eauto.
Qed.

Lemma setitem_ok : forall v k x v',
  py_setitem v k x = Ok v' -> exists kvs, v = JObj kvs /\ v' = JObj (assoc_set k x kvs).
Proof. intros v k x v' H; destruct v; try discriminate. injection H as <-. eauto. Qed.

Lemma append_ok : forall v x v',
  py_append v x = Ok v' -> exists l, v = JArr l /\ v' = JArr (l ++ [x]).
Proof. intros v x v' H; destruct v; try discriminate. injection H as <-. eauto. Qed.

Lemma assoc_assoc_set : forall k k' x kvs,
  assoc k (assoc_set k' x kvs) = if String.eqb k k' then Some x else assoc k kvs.
Proof.
  intros k k' x kvs. induction kvs as [| [k0 v0] kvs IH]; simpl.
  - destruct (String.eqb k k'); reflexivity.
  - destruct (String.eqb_spec k' k0) as [<- | Hne]; simpl.
    + destruct (String.eqb k k'); reflexivity.
    + destruct (String.eqb_spec k k0) as [-> | Hne']; simpl.
      * destruct (String.eqb_spec k0 k'); [congruence | reflexivity].
      * exact IH.
Qed.

Lemma assoc_assoc_set_same : forall k x kvs, assoc k (assoc_set k x kvs) = Some x.
Proof. intros. rewrite assoc_assoc_set, String.eqb_refl. reflexivity. Qed.

Lemma assoc_assoc_set_other : forall k k' x kvs,
  k <> k' -> assoc k (assoc_set k' x kvs) = assoc k kvs.
Proof.
  intros k k' x kvs Hne. rewrite assoc_assoc_set.
  destruct (String.eqb_spec k k'); [contradiction | reflexivity].
Qed.

Lemma add_mount_ok : forall vm c c',
  add_mount vm c = Ok c' -> mount_added vm c c'.
Proof.
  intros vm c c' H. unfold add_mount in H.
  destruct (py_contains c "volumeMounts") as [b |] eqn:Ec; [simpl in H | discriminate].
  apply contains_ok in Ec as [kvs [-> Hb]].
  destruct b.
  - destruct (py_getitem (JObj kvs) "volumeMounts") as [vms |] eqn:Eg;
      [simpl in H | discriminate].
    destruct (py_append vms vm) as [vms' |] eqn:Ea; [simpl in H | discriminate].
    apply getitem_ok in Eg as [kvs0 [Hk Hg]]. injection Hk as <-.
    apply append_ok in Ea as [ms [-> ->]].
    simpl in H. injection H as <-.
    exists kvs, (assoc_set "volumeMounts" (JArr (ms ++ [vm])) kvs).
    repeat split.
    + exists ms. split; [left; exact Hg | apply assoc_assoc_set_same].
    + intros k Hk. apply assoc_assoc_set_other; exact Hk.
  - simpl in H. injection H as <-.
    exists kvs, (assoc_set "volumeMounts" (JArr [vm]) kvs).
    repeat split.
    + exists []. split; [right; split; [exact Hb | reflexivity] | apply assoc_assoc_set_same].
    + intros k Hk. apply assoc_assoc_set_other; exact Hk.
Qed.

Lemma add_mount_str : forall vm s, add_mount vm (JStr s) = Err TypeError.
Proof. reflexivity. Qed.

Lemma mapM_Forall2 : forall {A B} (f : A -> res B) (P : A -> B -> Prop) l l',
  (forall x y, f x = Ok y -> P x y) ->
  res_mapM f l = Ok l' -> Forall2 P l l'.
Proof.
  intros A B f P l. induction l as [| x l IH]; intros l' Hf H; simpl in H.
  - injection H as <-. constructor.
  - destruct (f x) as [y |] eqn:Ex; [simpl in H | discriminate].
    destruct (res_mapM f l) as [ys |] eqn:El; [simpl in H | discriminate].
    injection H as <-. constructor; [apply Hf; exact Ex | apply IH; auto].
Qed.

Lemma chars_strs : forall s, Forall (fun x => exists t, x = JStr t) (chars s).
Proof. induction s; simpl; constructor; eauto. Qed.

Lemma for_each_add_mount : forall vm v v',
  for_each_mut (add_mount vm) v = Ok v' -> mounts_added vm v v'.
Proof.
  intros vm v v' H.
  assert (Hstrs : forall l, res_mapM (add_mount vm) l = Ok l ->
                  Forall (fun x => exists t, x = JStr t) l -> l = []).
  { intros [| x l] Hm Hs; [reflexivity |].
    inversion Hs as [| ? ? [t ->] _]; subst. simpl in Hm. discriminate. }
  destruct v as [| | | s | l | kvs]; simpl in H; try discriminate.
  - destruct (res_mapM (add_mount vm) (chars s)) as [ys |] eqn:E; [| discriminate].
    injection H as <-. right. split; [| reflexivity]. simpl. f_equal.
    destruct (chars s) as [| x l] eqn:Ec; [reflexivity |].
    pose proof (chars_strs s) as Hs. rewrite Ec in Hs.
    inversion Hs as [| ? ? [t ->] _]; subst. simpl in E. discriminate.
  - destruct (res_mapM (add_mount vm) l) as [l' |] eqn:E; [| discriminate].
    injection H as <-. left. exists l, l'. repeat split.
    apply (mapM_Forall2 _ _ _ _ (add_mount_ok vm) E).
  - destruct (res_mapM (add_mount vm) (map _ kvs)) as [ys |] eqn:E; [| discriminate].
    injection H as <-. right. split; [| reflexivity]. simpl. f_equal.
    destruct kvs as [| [k x] kvs]; [reflexivity |]. simpl in E. discriminate.
Qed.

(** ** The steps of [inject] *)

Lemma volumes_step : forall vol sp (hv : bool) sp1,
  py_contains sp "volumes" = Ok hv ->
  (if hv then
     vols <-? py_getitem sp "volumes" ;
     vols' <-? py_append vols vol ;
     py_setitem sp "volumes" vols'
   else py_setitem sp "volumes" (JArr [vol])) = Ok sp1 ->
  exists skvs old, sp = JObj skvs /\
    sp1 = JObj (assoc_set "volumes" (JArr (old ++ [vol])) skvs) /\
    (assoc "volumes" skvs = Some (JArr old) \/ (assoc "volumes" skvs = None /\ old = [])).
Proof.
  intros vol sp hv sp1 Hc H.
  apply contains_ok in Hc as [skvs [-> Hb]].
  destruct hv.
  - destruct (py_getitem (JObj skvs) "volumes") as [vols |] eqn:Eg;
      [simpl in H | discriminate].
    destruct (py_append vols vol) as [vols' |] eqn:Ea; [simpl in H | discriminate].
    apply getitem_ok in Eg as [kvs0 [Hk Hg]]. injection Hk as <-.
    apply append_ok in Ea as [old [-> ->]].
    injection H as <-. exists skvs, old. auto.
  - simpl in H. injection H as <-. exists skvs, []. auto.
Qed.

Lemma init_step : forall vm sp1 (hi : bool) sp2,
  py_contains sp1 "initContainers" = Ok hi ->
  (if hi then
     ics <-? py_getitem sp1 "initContainers" ;
     ics' <-? for_each_mut (add_mount vm) ics ;
     py_setitem sp1 "initContainers" ics'
   else Ok sp1) = Ok sp2 ->
  exists s1kvs, sp1 = JObj s1kvs /\
    ((assoc "initContainers" s1kvs = None /\ sp2 = sp1) \/
     exists ics ics', assoc "initContainers" s1kvs = Some ics /\ mounts_added vm ics ics' /\
                      sp2 = JObj (assoc_set "initContainers" ics' s1kvs)).
Proof.
  intros vm sp1 hi sp2 Hc H.
  apply contains_ok in Hc as [s1kvs [-> Hb]].
  exists s1kvs. split; [reflexivity |].
  destruct hi.
  - destruct (py_getitem (JObj s1kvs) "initContainers") as [ics |] eqn:Eg;
      [simpl in H | discriminate].
    destruct (for_each_mut (add_mount vm) ics) as [ics' |] eqn:Ef; [simpl in H | discriminate].
    apply getitem_ok in Eg as [kvs0 [Hk Hg]]. injection Hk as <-.
    injection H as <-. right. exists ics, ics'.
    split; [exact Hg | split; [apply for_each_add_mount; exact Ef | reflexivity]].
  - injection H as <-. left. auto.
Qed.

(** What a successful [inject] did to the object. *)
Lemma inject_ok : forall cfg spec m,
  inject cfg spec = Ok m ->
  (exists old, spec_field m "volumes" = Some (JArr (old ++ [ca_volume cfg])) /\
     (spec_field spec "volumes" = Some (JArr old) \/
      (spec_field spec "volumes" = None /\ old = []))) /\
  ((spec_field spec "initContainers" = None /\ spec_field m "initContainers" = None) \/
   exists ics ics', spec_field spec "initContainers" = Some ics /\
     spec_field m "initContainers" = Some ics' /\ mounts_added (ca_volume_mount cfg) ics ics') /\
  (exists cs cs', spec_field spec "containers" = Some cs /\
     spec_field m "containers" = Some cs' /\ mounts_added (ca_volume_mount cfg) cs cs') /\
  (forall k, k <> "spec" -> field m k = field spec k) /\
  (forall k, k <> "volumes" -> k <> "initContainers" -> k <> "containers" ->
     spec_field m k = spec_field spec k).
Proof.
  intros cfg spec m H. unfold inject in H.
  destruct (py_getitem spec "spec") as [sp |] eqn:E1; [simpl in H | discriminate].
  destruct (py_contains sp "volumes") as [hv |] eqn:E2; [simpl in H | discriminate].
  match type of H with res_bind ?r _ = _ => destruct r as [sp1 |] eqn:E3 end;
    [simpl in H | discriminate].
  destruct (py_contains sp1 "initContainers") as [hi |] eqn:E4; [simpl in H | discriminate].
  match type of H with res_bind ?r _ = _ => destruct r as [sp2 |] eqn:E5 end;
    [simpl in H | discriminate].
  destruct (py_getitem sp2 "containers") as [cs |] eqn:E6; [simpl in H | discriminate].
  destruct (for_each_mut (add_mount (ca_volume_mount cfg)) cs) as [cs' |] eqn:E7;
    [simpl in H | discriminate].
  destruct (py_setitem sp2 "containers" cs') as [sp3 |] eqn:E8; [simpl in H | discriminate].
  apply getitem_ok in E1 as [kvs [-> Hspec]].
  destruct (volumes_step _ _ _ _ E2 E3) as [skvs [old [-> [-> Hold]]]].
  destruct (init_step _ _ _ _ E4 E5) as [s1kvs [Hs1 Hinit]].
  injection Hs1 as Hs1.
  apply getitem_ok in E6 as [s2kvs [Hs2 Hcs]].
  apply setitem_ok in E8 as [s2kvs' [Hs2' ->]]. rewrite Hs2 in Hs2'. injection Hs2' as <-.
  simpl in H. injection H as <-.
  pose proof (for_each_add_mount _ _ _ E7) as Hcs'.
  unfold spec_field, field. rewrite assoc_assoc_set_same, Hspec.
  (* [sp2] in terms of [s1kvs] *)
  assert (Hs2kvs : (assoc "initContainers" s1kvs = None /\ s2kvs = s1kvs) \/
     exists ics ics', assoc "initContainers" s1kvs = Some ics /\
       mounts_added (ca_volume_mount cfg) ics ics' /\
       s2kvs = assoc_set "initContainers" ics' s1kvs).
  { destruct Hinit as [[Hn ->] | [ics [ics' [Hi [Hm ->]]]]]; injection Hs2 as <-; eauto 7. }
  clear Hinit Hs2.
  assert (Hc_ne : forall k, k <> "containers" ->
            assoc k (assoc_set "containers" cs' s2kvs) = assoc k s2kvs)
    by (intros; apply assoc_assoc_set_other; assumption).
  subst s1kvs.
  split; [| split; [| split; [| split]]].
  - exists old. rewrite Hc_ne by discriminate.
    destruct Hs2kvs as [[_ ->] | [ics [ics' [_ [_ ->]]]]];
      [| rewrite assoc_assoc_set_other by discriminate];
      rewrite assoc_assoc_set_same; split; [reflexivity | | reflexivity |];
      destruct Hold as [Hv | [Hv ->]]; auto.
  - rewrite Hc_ne by discriminate.
    rewrite (assoc_assoc_set_other "initContainers" "volumes") in Hs2kvs by discriminate.
    destruct Hs2kvs as [[Hn ->] | [ics [ics' [Hi [Hm ->]]]]].
    + left. rewrite assoc_assoc_set_other by discriminate. auto.
    + right. exists ics, ics'. rewrite assoc_assoc_set_same. auto.
  - exists cs, cs'. rewrite assoc_assoc_set_same.
    rewrite <- Hcs. split; [| split; [reflexivity | exact Hcs']].
    destruct Hs2kvs as [[_ ->] | [ics [ics' [_ [_ ->]]]]];
      repeat rewrite (assoc_assoc_set_other "containers") by discriminate; reflexivity.
  - intros k Hk. apply assoc_assoc_set_other; exact Hk.
  - intros k Hv Hi Hc. rewrite Hc_ne by exact Hc.
    destruct Hs2kvs as [[_ ->] | [ics [ics' [_ [_ ->]]]]];
      repeat rewrite assoc_assoc_set_other by assumption; reflexivity.
Qed.

Lemma inject_injected : forall cfg spec m,
  inject cfg spec = Ok m -> bundle_injected cfg spec m.
Proof. exact inject_ok. Qed.

(** ** [copy.deepcopy] *)

Lemma json_depth_pos : forall v, 1 <= json_depth v.
Proof. intros []; simpl; lia. Qed.

Lemma mapM_ok_id : forall {A} (f : A -> res A) (Q : A -> Prop) l l',
  (forall x y, f x = Ok y -> y = x /\ Q x) ->
  res_mapM f l = Ok l' -> l' = l /\ Forall Q l.
Proof.
  intros A f Q l. induction l as [| x l IH]; intros l' Hf H; simpl in H.
  - injection H as <-. split; [reflexivity | constructor].
  - destruct (f x) as [y |] eqn:Ex; [simpl in H | discriminate].
    destruct (res_mapM f l) as [ys |] eqn:El; [simpl in H | discriminate].
    injection H as <-. destruct (Hf _ _ Ex) as [-> Hq].
    destruct (IH ys Hf eq_refl) as [-> Hl]. split; [reflexivity | constructor; assumption].
Qed.

Lemma mapM_err : forall {A B} (f : A -> res B) (R : exc -> Prop) l x,
  (forall a y, f a = Err y -> R y) -> res_mapM f l = Err x -> R x.
Proof.
  intros A B f R l. induction l as [| a l IH]; intros x Hf H; simpl in H; [discriminate |].
  destruct (f a) as [y |] eqn:Ea; simpl in H; [| injection H as <-; eapply Hf; exact Ea].
  destruct (res_mapM f l) as [ys |] eqn:El; simpl in H; [discriminate |].
  injection H as <-. eapply IH; [exact Hf | reflexivity].
Qed.

Lemma mapM_fix : forall {A} (f : A -> res A) l,
  Forall (fun x => f x = Ok x) l -> res_mapM f l = Ok l.
Proof.
  intros A f l H. induction H as [| x l Hx _ IH]; simpl; [reflexivity |].
  rewrite Hx, IH. reflexivity.
Qed.

Lemma list_max_map_le : forall {A} (g : A -> nat) l n,
  list_max (map g l) <= n <-> Forall (fun x => g x <= n) l.
Proof.
  intros A g l n. rewrite list_max_le, Forall_map. reflexivity.
Qed.

(** A copy that succeeds is an equal tree, of depth within the fuel; the
    only way it fails is [RecursionError]. *)
Lemma deepcopy_ok_err : forall n v,
  (forall v', py_deepcopy n v = Ok v' -> v' = v /\ json_depth v <= n) /\
  (forall x, py_deepcopy n v = Err x -> x = RecursionError).
Proof.
  induction n as [| n IH]; intros v.
  - split; [discriminate | intros x H; injection H as <-; reflexivity].
  - destruct v as [| b | z | s | l | kvs]; simpl;
      try (split; [intros v' H; injection H as <-; split; [reflexivity | lia]
                  | discriminate]).
    + split.
      * intros v' H.
        destruct (res_mapM (py_deepcopy n) l) as [l' |] eqn:E; simpl in H; [| discriminate].
        injection H as <-.
        destruct (mapM_ok_id _ (fun x => json_depth x <= n) _ _
                    (fun x y Hxy => proj1 (IH x) y Hxy) E) as [-> Hl].
        split; [reflexivity |]. apply (proj2 (list_max_map_le _ _ _)) in Hl. lia.
      * intros x H.
        destruct (res_mapM (py_deepcopy n) l) as [l' |] eqn:E; simpl in H; [discriminate |].
        injection H as <-. apply (mapM_err (py_deepcopy n) (fun y => y = RecursionError) l _); [| exact E].
        intros a y Ha. exact (proj2 (IH a) y Ha).
    + set (f := fun kv : string * json =>
                  x <-? py_deepcopy n (snd kv) ;
                  _ <-? py_deepcopy n (JStr (fst kv)) ; Ok (fst kv, x)).
      assert (Hf_ok : forall kv y, f kv = Ok y -> y = kv /\ json_depth (snd kv) <= n).
      { intros [k x] y H. unfold f in H; simpl in H.
        destruct (py_deepcopy n x) as [x' |] eqn:Ex; simpl in H; [| discriminate].
        destruct (py_deepcopy n (JStr k)) as [k' |]; simpl in H; [| discriminate].
        injection H as <-. destruct (proj1 (IH x) x' Ex) as [-> Hd]. auto. }
      assert (Hf_err : forall kv y, f kv = Err y -> y = RecursionError).
      { intros [k x] y H. unfold f in H; simpl in H.
        destruct (py_deepcopy n x) as [x' |] eqn:Ex; simpl in H;
          [| injection H as <-; exact (proj2 (IH x) _ Ex)].
        destruct (py_deepcopy n (JStr k)) as [k' |] eqn:Ek; simpl in H; [discriminate |].
        injection H as <-. exact (proj2 (IH (JStr k)) _ Ek). }
      fold f. split.
      * intros v' H.
        destruct (res_mapM f kvs) as [kvs' |] eqn:E; simpl in H; [| discriminate].
        injection H as <-. destruct (mapM_ok_id _ _ _ _ Hf_ok E) as [-> Hl].
        split; [reflexivity |].
        apply (proj2 (list_max_map_le (fun kv => json_depth (snd kv)) _ _)) in Hl. lia.
      * intros x H.
        destruct (res_mapM f kvs) as [kvs' |] eqn:E; simpl in H; [discriminate |].
        injection H as <-. exact (mapM_err _ (fun y => y = RecursionError) _ _ Hf_err E).
Qed.

(** A tree within the fuel is copied. *)
Lemma deepcopy_within : forall n v, json_depth v <= n -> py_deepcopy n v = Ok v.
Proof.
  induction n as [| n IH]; intros v H; [pose proof (json_depth_pos v); lia |].
  destruct v as [| b | z | s | l | kvs]; simpl; try reflexivity; simpl in H.
  - rewrite mapM_fix; [reflexivity |].
    assert (Hl : Forall (fun x => json_depth x <= n) l)
      by (apply list_max_map_le; lia).
    eapply Forall_impl; [| exact Hl]. intros x Hx. apply IH. exact Hx.
  - rewrite mapM_fix; [reflexivity |].
    assert (Hl : Forall (fun kv => json_depth (snd kv) <= n) kvs)
      by (apply (list_max_map_le (fun kv => json_depth (snd kv))); lia).
    eapply Forall_impl; [| exact Hl]. intros [k x] Hx; simpl in Hx |- *.
    rewrite (IH x Hx). pose proof (json_depth_pos x).
    destruct n as [| n']; [lia |]. reflexivity.
Qed.

Lemma deepcopy_spec : forall n v,
  py_deepcopy n v = if Nat.leb (json_depth v) n then Ok v else Err RecursionError.
Proof.
  intros n v. destruct (Nat.leb_spec (json_depth v) n) as [Hle | Hgt].
  - apply deepcopy_within. exact Hle.
  - destruct (py_deepcopy n v) as [v' | x] eqn:E.
    + destruct (proj1 (deepcopy_ok_err n v) v' E) as [_ Hd]. lia.
    + rewrite (proj2 (deepcopy_ok_err n v) x E). reflexivity.
Qed.

Lemma deepcopy_eq : forall v e st,
  deepcopy v e st =
    (if Nat.leb (json_depth v) (copy_fuel e) then Ok v else Err RecursionError, st).
Proof. intros v e st. unfold deepcopy. rewrite deepcopy_spec. reflexivity. Qed.

(** Line 43 either fails with [RecursionError], changing nothing, or hands
    an equal tree to lines 45-84. *)
Lemma mutate_object_eq : forall cfg spec e st,
  mutate_object cfg spec e st =
  if Nat.leb (json_depth spec) (copy_fuel e) then mutate_copy cfg spec e st
  else (Err RecursionError, st).
Proof.
  intros. unfold mutate_object, bind. rewrite deepcopy_eq.
  destruct (Nat.leb _ _); reflexivity.
Qed.

(** ** The handler, inverted *)

Lemma mutate_object_ok : forall cfg spec e st m st',
  mutate_object cfg spec e st = (Ok m, st') ->
  exists md ann t,
    py_getitem spec "metadata" = Ok md /\ py_getitem md "annotations" = Ok ann /\
    py_get ann (ca_bundle_annotation cfg) = Ok t /\
    (if is_true_string t
     then exists ns, py_getitem md "namespace" = Ok ns /\
                     ensure cfg ns e st = (Ok tt, st') /\ inject cfg spec = Ok m
     else m = spec /\ st' = st).
Proof.
  intros cfg spec e st m st' H.
  rewrite mutate_object_eq in H.
  destruct (Nat.leb (json_depth spec) (copy_fuel e)); [| discriminate].
  unfold mutate_copy, load_incluster_config, bind, lift, ret in H.
  destruct (py_getitem spec "metadata") as [md |] eqn:E1; [| discriminate].
  destruct (py_getitem md "annotations") as [ann |] eqn:E2; [| discriminate].
  destruct (py_get ann (ca_bundle_annotation cfg)) as [t |] eqn:E3; [| discriminate].
  exists md, ann, t. do 3 (split; [first [reflexivity | assumption] |]).
  destruct (is_true_string t).
  - destruct (py_getitem md "namespace") as [ns |] eqn:E4; [| discriminate].
    exists ns. split; [first [reflexivity | assumption] |].
    destruct (in_cluster e); [| discriminate].
    destruct (ensure cfg ns e st) as [[[] | x] st1]; [| discriminate].
    destruct (inject cfg spec) as [m' |] eqn:E5; [| discriminate].
    injection H as <- <-. split; reflexivity.
  - injection H as <- <-. split; reflexivity.
Qed.

Lemma mutate_ok : forall {JP : JsonPatchLib} cfg body e st r st',
  mutate cfg body e st = (Ok r, st') ->
  exists rq spec m u,
    py_getitem body "request" = Ok rq /\ py_getitem rq "object" = Ok spec /\
    mutate_object cfg spec e st = (Ok m, st') /\ py_getitem rq "uid" = Ok u /\
    r = {| apiVersion := "admission.k8s.io/v1"; kind := "AdmissionReview";
           allowed := true; uid := u;
           patch := b64encode (str_encode (patch_to_string (from_diff spec m)));
           patchType := "JSONPatch" |}.
Proof.
  intros JP cfg body e st r st' H.
  unfold mutate, bind, lift, ret in H.
  destruct (py_getitem body "request") as [rq |] eqn:E1; [| discriminate].
  destruct (py_getitem rq "object") as [spec |] eqn:E2; [| discriminate].
  destruct (mutate_object cfg spec e st) as [[m | x] st1] eqn:E3; [| discriminate].
  destruct (py_getitem rq "uid") as [u |] eqn:E4; [| discriminate].
  injection H as <- <-. exists rq, spec, m, u. auto 6.
Qed.

(** A failure of lines 43-84 is the handler's failure. *)
Lemma mutate_fails_with_object : forall {JP : JsonPatchLib} cfg body e st rq spec x st1,
  py_getitem body "request" = Ok rq -> py_getitem rq "object" = Ok spec ->
  mutate_object cfg spec e st = (Err x, st1) ->
  mutate cfg body e st = (Err x, st1).
Proof.
  intros JP cfg body e st rq spec x st1 H1 H2 H3.
  unfold mutate, bind, lift. cbv beta. rewrite H1. cbv beta iota. rewrite H2.
  cbv beta iota. rewrite H3. reflexivity.
Qed.

(** ** C2: a triggered object gets the volume and the mounts *)

(** C2: for an object whose trigger annotation is "true", when the handler
    answers, the patch it sends is the diff from the object to an object
    [m] which, by jsonpatch's own round trip, applying the patch yields, and
    in [m] [spec.volumes] is the old sequence (or a new one) with the
    [ca-bundle] volume (ConfigMap [configmap_name], mode 420) appended at the
    end, and every container and init-container got the [ca-bundle] mount at
    [/etc/ssl/certs/<filename>], subPath [filename], appended at the end of
    its [volumeMounts] (a new one-element sequence when it had none). *)
Theorem triggered_object_gets_bundle : forall {JP : JsonPatchLib},
  (forall a b, apply_patch (from_diff a b) a = Some b) ->
  forall cfg body e st rq spec r st',
  py_getitem body "request" = Ok rq -> py_getitem rq "object" = Ok spec ->
  triggered cfg spec ->
  mutate cfg body e st = (Ok r, st') ->
  exists m,
    patch r = b64encode (str_encode (patch_to_string (from_diff spec m))) /\
    apply_patch (from_diff spec m) spec = Some m /\
    bundle_injected cfg spec m.
Proof.
  intros JP Hrt cfg body e st rq spec r st' Hrq Hobj Htr H.
  apply mutate_ok in H as [rq' [spec' [m [u [Hrq' [Hobj' [Hm [Hu ->]]]]]]]].
  rewrite Hrq in Hrq'. injection Hrq' as <-. rewrite Hobj in Hobj'. injection Hobj' as <-.
  exists m. split; [reflexivity | split; [apply Hrt |]].
  apply mutate_object_ok in Hm as [md [ann [t [Hmd [Hann [Ht Hbr]]]]]].
  destruct Htr as [md' [ann' [Hmd' [Hann' Ht']]]].
  rewrite Hmd in Hmd'. injection Hmd' as <-. rewrite Hann in Hann'. injection Hann' as <-.
  rewrite Ht in Ht'. injection Ht' as ->. simpl in Hbr.
  destruct Hbr as [ns [_ [_ Hinj]]]. apply inject_injected; exact Hinj.
Qed.

Lemma json_eqb_eq : forall a b, json_eqb a b = true -> a = b.
Proof.
  fix IH 1. intros [| x | x | x | xs | xs] [| y | y | y | ys | ys]; simpl;
    intro H; try discriminate; try reflexivity.
  - apply Bool.eqb_prop in H. subst. reflexivity.
  - apply Z.eqb_eq in H. subst. reflexivity.
  - apply String.eqb_eq in H. subst. reflexivity.
  - f_equal. revert ys H. induction xs as [| x xs IHx]; intros [| y ys] H;
      try discriminate; [reflexivity |].
    apply andb_prop in H as [H1 H2]. f_equal; [apply IH; exact H1 | apply IHx; exact H2].
  - f_equal. revert ys H. induction xs as [| [k x] xs IHx]; intros [| [k' y] ys] H;
      try discriminate; [reflexivity |].
    apply andb_prop in H as [H12 H3]. apply andb_prop in H12 as [H1 H2].
    apply String.eqb_eq in H1. subst k'.
    f_equal; [f_equal; apply IH; exact H2 | apply IHx; exact H3].
Qed.

Lemma whole_doc_patch_roundtrip :
  forall a b, @apply_patch whole_doc_patch (@from_diff whole_doc_patch a b) a = Some b.
Proof.
  intros a b. simpl. destruct (json_eqb a b) eqn:E.
  - apply json_eqb_eq in E. subst. reflexivity.
  - reflexivity.
Qed.

Lemma triggered_pod_ns1 : triggered cfg0 pod_ns1.
Proof.
  exists (JObj [("annotations", annotations_true); ("namespace", ns1)]), annotations_true.
  repeat split; reflexivity.
Qed.

Lemma triggered_object_gets_bundle_witness :
  exists r st',
    @mutate whole_doc_patch cfg0 body_pod_ns1 env_ok empty_cluster = (Ok r, st') /\
    exists m,
      patch r = b64encode (str_encode (@patch_to_string whole_doc_patch
                                          (@from_diff whole_doc_patch pod_ns1 m))) /\
      @apply_patch whole_doc_patch (@from_diff whole_doc_patch pod_ns1 m) pod_ns1 = Some m /\
      bundle_injected cfg0 pod_ns1 m.
Proof.
  do 2 eexists. split; [cbv; reflexivity |].
  eapply (@triggered_object_gets_bundle whole_doc_patch whole_doc_patch_roundtrip
            cfg0 body_pod_ns1 env_ok empty_cluster);
    [reflexivity | reflexivity | exact triggered_pod_ns1 | cbv; reflexivity].
Defined.

(** ** C4, C10: objects without [metadata.annotations] *)

(** Support for C4: when [metadata.annotations] is a mapping and the trigger
    value is anything but the string "true", the handler makes no external
    call and answers allowed with the encoding of jsonpatch's diff of the
    object with itself, which is the empty patch. *)
Lemma untriggered_empty_patch : forall {JP : JsonPatchLib},
  (forall a, from_diff a a = []) ->
  forall cfg body e st rq spec md ann t u,
  py_getitem body "request" = Ok rq -> py_getitem rq "object" = Ok spec ->
  py_getitem spec "metadata" = Ok md -> py_getitem md "annotations" = Ok ann ->
  py_get ann (ca_bundle_annotation cfg) = Ok t -> is_true_string t = false ->
  py_getitem rq "uid" = Ok u ->
  json_depth spec <= copy_fuel e ->
  mutate cfg body e st =
    (Ok {| apiVersion := "admission.k8s.io/v1"; kind := "AdmissionReview";
           allowed := true; uid := u;
           patch := b64encode (str_encode (patch_to_string []));
           patchType := "JSONPatch" |}, st).
Proof.
  intros JP Hrefl cfg body e st rq spec md ann t u H1 H2 H3 H4 H5 H6 H7 Hd.
  unfold mutate, bind, lift, ret. cbv beta. rewrite H1, H2. cbv beta iota.
  rewrite mutate_object_eq, (proj2 (Nat.leb_le _ _) Hd).
  unfold mutate_copy, bind, lift, ret. cbv beta.
  rewrite H3, H4, H5, H6, H7, Hrefl. reflexivity.
Qed.

(** C4 (code bug): the objects of test_mutate_with_no_data ([{}]) and
    test_mutate_with_data ([{"metadata": {"labels": {}}}]) carry no trigger
    annotation, and the tests expect a valid allowed response for them; the
    handler instead raises [KeyError] on [metadata] resp. [annotations],
    before any external call. *)
Theorem untriggered_without_annotations_raises : forall {JP : JsonPatchLib} e st,
  mutate cfg0 body_no_data e st = (Err (KeyError "metadata"), st) /\
  mutate cfg0 body_labels_only e st = (Err (KeyError "annotations"), st).
Proof.
  intros JP e st.
  assert (Hf : forall d, d <= copy_floor -> Nat.leb d (copy_fuel e) = true)
    by (intros d Hd; apply Nat.leb_le; unfold copy_fuel; lia).
  split; (eapply mutate_fails_with_object; [reflexivity | reflexivity |]);
    rewrite mutate_object_eq, Hf by (cbv; lia); reflexivity.
Qed.




(** ** C5: a triggered object without [spec.containers] *)

(** C5 (code bug): for a triggered object whose [spec] has no [containers]
    the handler raises [KeyError('containers')] (line 80 has no
    ['containers' in ...] guard, unlike [initContainers] on line 73), after
    having already created the ConfigMap. *)
Theorem missing_containers_raises : forall {JP : JsonPatchLib},
  mutate cfg0 body_no_containers env_ok empty_cluster =
  (Err (KeyError "containers"),
   {| configmaps := [cm0];
      calls := [CallRead ns1 "ca-bundle"; CallFetch "https://pki.example/ca.pem";
                CallCreate ns1 "ca-bundle"] |}).
Proof. intros JP. reflexivity. Qed.

(** ** C9: the answer does not depend on the cluster *)

Lemma mutate_object_det : forall cfg spec e1 e2 st1 st2 m1 m2 st1' st2',
  mutate_object cfg spec e1 st1 = (Ok m1, st1') ->
  mutate_object cfg spec e2 st2 = (Ok m2, st2') ->
  m1 = m2.
Proof.
  intros cfg spec e1 e2 st1 st2 m1 m2 st1' st2' H1 H2.
  apply mutate_object_ok in H1 as [md [ann [t [Hmd [Ha [Ht B1]]]]]].
  apply mutate_object_ok in H2 as [md' [ann' [t' [Hmd' [Ha' [Ht' B2]]]]]].
  rewrite Hmd in Hmd'. injection Hmd' as <-. rewrite Ha in Ha'. injection Ha' as <-.
  rewrite Ht in Ht'. injection Ht' as <-.
  destruct (is_true_string t).
  - destruct B1 as [ns [_ [_ I1]]]. destruct B2 as [ns' [_ [_ I2]]]. congruence.
  - destruct B1 as [-> _]. destruct B2 as [-> _]. reflexivity.
Qed.

(** C9: two runs of the handler on the same body with the same
    configuration that both answer give the same answer, hence the same
    base64 patch string, whatever the cluster, its faults and the bundle
    source did in each run. *)
Theorem patch_deterministic : forall {JP : JsonPatchLib} cfg body e1 e2 st1 st2 r1 r2 st1' st2',
  mutate cfg body e1 st1 = (Ok r1, st1') ->
  mutate cfg body e2 st2 = (Ok r2, st2') ->
  patch r1 = patch r2 /\ r1 = r2.
Proof.
  intros JP cfg body e1 e2 st1 st2 r1 r2 st1' st2' H1 H2.
  apply mutate_ok in H1 as [rq [spec [m [u [Hrq [Hobj [Hm [Hu ->]]]]]]]].
  apply mutate_ok in H2 as [rq' [spec' [m' [u' [Hrq' [Hobj' [Hm' [Hu' ->]]]]]]]].
  rewrite Hrq in Hrq'. injection Hrq' as <-. rewrite Hobj in Hobj'. injection Hobj' as <-.
  rewrite Hu in Hu'. injection Hu' as <-.
  rewrite (mutate_object_det _ _ _ _ _ _ _ _ _ _ Hm Hm'). split; reflexivity.
Qed.

Lemma patch_deterministic_witness :
  exists r1 r2 st1' st2',
    @mutate whole_doc_patch cfg0 body_pod_ns1 env_ok
      {| configmaps := [cm0]; calls := [] |} = (Ok r1, st1') /\
    @mutate whole_doc_patch cfg0 body_pod_ns1 env_read_forbidden empty_cluster
      = (Ok r2, st2') /\
    patch r1 = patch r2 /\ r1 = r2.
Proof.
  do 4 eexists. split; [cbv; reflexivity |]. split; [cbv; reflexivity |].
  eapply (@patch_deterministic whole_doc_patch cfg0 body_pod_ns1 env_ok env_read_forbidden
            {| configmaps := [cm0]; calls := [] |} empty_cluster);
    cbv; reflexivity.
Defined.

(** ** The heap model: what [plan] may write *)

Module HeapFrame.
Import Heap.

Section Frame.

Variable n0 : nat.
Variable h0 : heap.

Lemma safe_ret : forall {A} (a : A) (P : A -> Prop), P a -> safe n0 h0 (hret a) P.
Proof. intros A a P Ha h r h' Hf E. injection E as <- <-. split; [exact Hf |]. congruence. Qed.

Lemma safe_raise : forall {A} x (P : A -> Prop), safe n0 h0 (hraise x) P.
Proof. intros A x P h r h' Hf E. injection E as <- <-. split; [exact Hf | discriminate]. Qed.

Lemma safe_lift : forall {A} (r : res A), safe n0 h0 (hlift r) (fun _ => True).
Proof. intros A r0 h r h' Hf E. injection E as <- <-. auto. Qed.

Lemma safe_bind : forall {A B} (m : HM A) (f : A -> HM B) P Q,
  safe n0 h0 m P -> (forall a, P a -> safe n0 h0 (f a) Q) -> safe n0 h0 (hbind m f) Q.
Proof.
  intros A B m f P Q Hm Hf h r h' Hfr E. unfold hbind in E.
  destruct (m h) as [[a | x] h1] eqn:Em.
  - destruct (Hm _ _ _ Hfr Em) as [Hfr1 HP]. exact (Hf a (HP a eq_refl) _ _ _ Hfr1 E).
  - injection E as <- <-. destruct (Hm _ _ _ Hfr Em) as [Hfr1 _].
    split; [exact Hfr1 | discriminate].
Qed.

Lemma safe_weaken : forall {A} (m : HM A) (P Q : A -> Prop),
  safe n0 h0 m P -> (forall a, P a -> Q a) -> safe n0 h0 m Q.
Proof.
  intros A m P Q Hm HPQ h r h' Hf E. destruct (Hm _ _ _ Hf E) as [Hf' HP]. auto.
Qed.

Lemma lookup_key_in : forall {V} k (kvs : list (string * V)) x,
  lookup_key k kvs = Some x -> In x (map snd kvs).
Proof.
  intros V k kvs x. induction kvs as [| [k' v] kvs IH]; simpl; [discriminate |].
  destruct (String.eqb k k'); [intros [= ->]; left; reflexivity | intros H; right; auto].
Qed.

Lemma set_key_vals : forall {V} (P : V -> Prop) k x (kvs : list (string * V)),
  Forall P (map snd kvs) -> P x -> Forall P (map snd (set_key k x kvs)).
Proof.
  intros V P k x kvs Hall Hx. induction kvs as [| [k' v] kvs IH]; simpl in *.
  - constructor; [exact Hx | constructor].
  - inversion Hall; subst. destruct (String.eqb k k'); simpl; constructor; auto.
Qed.

Lemma safe_as_dict : forall err v, above n0 v ->
  safe n0 h0 (as_dict err v) (fun d => n0 <= fst d /\ Forall (above n0) (map snd (snd d))).
Proof.
  intros err v Hv h r h' Hf E. destruct v; simpl in E; try (injection E as <- <-; split; [exact Hf | discriminate]).
  destruct (mem h n) as [[kvs | items] |] eqn:Hm; injection E as <- <-; split; try exact Hf;
    try discriminate.
  intros a [= <-]. simpl in Hv |- *. split; [exact Hv |].
  destruct Hf as [_ [_ Hyoung]]. exact (Hyoung _ _ Hv Hm).
Qed.

Lemma safe_getitem : forall v k, above n0 v -> safe n0 h0 (getitem v k) (above n0).
Proof.
  intros v k Hv. unfold getitem. eapply safe_bind; [apply safe_as_dict; exact Hv |].
  intros [l kvs] [_ Hall]. simpl in *.
  destruct (lookup_key k kvs) as [x |] eqn:E; [| apply safe_raise].
  apply safe_ret. rewrite Forall_forall in Hall. apply Hall. eapply lookup_key_in; exact E.
Qed.

Lemma safe_get : forall v k, above n0 v -> safe n0 h0 (get v k) (above n0).
Proof.
  intros v k Hv. unfold get. eapply safe_bind; [apply safe_as_dict; exact Hv |].
  intros [l kvs] [_ Hall]. simpl in *.
  destruct (lookup_key k kvs) as [x |] eqn:E; apply safe_ret; [| exact I].
  rewrite Forall_forall in Hall. apply Hall. eapply lookup_key_in; exact E.
Qed.

Lemma safe_contains : forall v k, above n0 v -> safe n0 h0 (contains v k) (fun _ => True).
Proof.
  intros v k Hv. unfold contains. eapply safe_bind; [apply safe_as_dict; exact Hv |].
  intros [l kvs] _. simpl. destruct (lookup_key k kvs); apply safe_ret; exact I.
Qed.

Lemma safe_write : forall l o, n0 <= l -> Forall (above n0) (obj_vals o) ->
  safe n0 h0 (write l o) (fun _ => True).
Proof.
  intros l o Hl Ho h r h' [Hn [Hold Hyoung]] E. injection E as <- <-.
  split; [| intros; exact I]. simpl. split; [exact Hn | split].
  - intros l' Hl'. cbn. destruct (Nat.eqb_spec l' l); [lia | apply Hold; exact Hl'].
  - intros l' o' Hl' Hm. cbn in Hm. destruct (Nat.eqb_spec l' l).
    + injection Hm as <-. exact Ho.
    + exact (Hyoung _ _ Hl' Hm).
Qed.

Lemma safe_alloc : forall o, Forall (above n0) (obj_vals o) ->
  safe n0 h0 (alloc o) (fun l => n0 <= l).
Proof.
  intros o Ho h r h' [Hn [Hold Hyoung]] E. injection E as <- <-.
  split; [| intros a [= <-]; exact Hn]. unfold frame; cbn. split; [lia | split].
  - intros l' Hl'. cbn. destruct (Nat.eqb_spec l' (next h)); [lia | apply Hold; exact Hl'].
  - intros l' o' Hl' Hm. cbn in Hm. destruct (Nat.eqb_spec l' (next h)).
    + injection Hm as <-. exact Ho.
    + exact (Hyoung _ _ Hl' Hm).
Qed.

Lemma safe_setitem : forall v k x, above n0 v -> above n0 x ->
  safe n0 h0 (setitem v k x) (fun _ => True).
Proof.
  intros v k x Hv Hx. unfold setitem. eapply safe_bind; [apply safe_as_dict; exact Hv |].
  intros [l kvs] [Hl Hall]. apply safe_write; [exact Hl |].
  simpl. apply set_key_vals; assumption.
Qed.

Lemma safe_append : forall v x, above n0 v -> above n0 x ->
  safe n0 h0 (append v x) (fun _ => True).
Proof.
  intros v x Hv Hx h r h' Hf E. destruct v; simpl in E;
    try (injection E as <- <-; split; [exact Hf | discriminate]).
  destruct (mem h n) as [[kvs | items] |] eqn:Hm;
    try (injection E as <- <-; split; [exact Hf | discriminate]).
  refine (safe_write n (OList (items ++ [x])) Hv _ h r h' Hf E).
  simpl. apply Forall_app. split; [| constructor; [exact Hx | constructor]].
  destruct Hf as [_ [_ Hyoung]]. exact (Hyoung _ _ Hv Hm).
Qed.

Lemma Forall_hchars : forall s, Forall (above n0) (hchars s).
Proof. induction s; simpl; constructor; simpl; auto. Qed.

Lemma safe_iter : forall v, above n0 v -> safe n0 h0 (iter v) (Forall (above n0)).
Proof.
  intros v Hv h r h' Hf E. destruct v; simpl in E;
    try (injection E as <- <-; split; [exact Hf | discriminate]).
  - injection E as <- <-. split; [exact Hf | intros a [= <-]; apply Forall_hchars].
  - destruct (mem h n) as [[kvs | items] |] eqn:Hm; injection E as <- <-;
      split; try exact Hf; try discriminate.
    + intros a [= <-]. apply Forall_forall. intros y Hy. apply in_map_iff in Hy.
      destruct Hy as [kv [<- _]]. exact I.
    + intros a [= <-]. destruct Hf as [_ [_ Hyoung]]. exact (Hyoung _ _ Hv Hm).
Qed.

Lemma safe_hforM : forall {A} (f : A -> HM unit) (P : A -> Prop) l,
  (forall x, P x -> safe n0 h0 (f x) (fun _ => True)) -> Forall P l ->
  safe n0 h0 (hforM f l) (fun _ => True).
Proof.
  intros A f P l Hf Hl. induction Hl as [| x l Hx Hl IH]; simpl.
  - apply safe_ret. exact I.
  - eapply safe_bind; [apply Hf; exact Hx | intros _ _; exact IH].
Qed.

Lemma safe_hmapM : forall {A B} (f : A -> HM B) (P : B -> Prop) l,
  (forall x, In x l -> safe n0 h0 (f x) P) -> safe n0 h0 (hmapM f l) (Forall P).
Proof.
  intros A B f P l Hf. induction l as [| x l IH]; simpl.
  - apply safe_ret. constructor.
  - eapply safe_bind; [apply Hf; left; reflexivity |]. intros y Hy.
    eapply safe_bind; [apply IH; intros; apply Hf; right; assumption |]. intros ys Hys.
    apply safe_ret. constructor; assumption.
Qed.

Lemma safe_mount_one : forall vm c, above n0 vm -> above n0 c ->
  safe n0 h0 (mount_one vm c) (fun _ => True).
Proof.
  intros vm c Hvm Hc. unfold mount_one.
  eapply safe_bind; [apply safe_contains; exact Hc |]. intros [] _.
  - eapply safe_bind; [apply safe_getitem; exact Hc |]. intros vms Hvms.
    apply safe_append; assumption.
  - eapply safe_bind; [apply safe_alloc |].
    + simpl. constructor; [exact Hvm | constructor].
    + intros lst Hlst. apply safe_setitem; [exact Hc | exact Hlst].
Qed.

Lemma safe_deepcopy : forall n v, safe n0 h0 (deepcopy n v) (above n0).
Proof.
  induction n as [| n IH]; intros v.
  - destruct v; simpl; try (apply safe_ret; exact I). apply safe_raise.
  - destruct v; simpl; try (apply safe_ret; exact I).
    intros h r h' Hf E.
    destruct (mem h n1) as [[kvs | items] |] eqn:Hm.
    + refine (safe_bind _ _ (Forall (fun kv => above n0 (snd kv))) _ _ _ h r h' Hf E).
      * apply safe_hmapM. intros kv _.
        eapply safe_bind; [apply IH |]. intros x Hx. apply safe_ret. exact Hx.
      * intros kvs' Hkvs'. eapply safe_bind; [apply safe_alloc |].
        -- simpl. apply Forall_map. exact Hkvs'.
        -- intros l' Hl'. apply safe_ret. exact Hl'.
    + refine (safe_bind _ _ (Forall (above n0)) _ _ _ h r h' Hf E).
      * apply safe_hmapM. intros x _. apply IH.
      * intros items' Hitems'. eapply safe_bind; [apply safe_alloc; exact Hitems' |].
        intros l' Hl'. apply safe_ret. exact Hl'.
    + injection E as <- <-. split; [exact Hf | discriminate].
Qed.

Ltac safe_prim :=
  first [ apply safe_deepcopy
        | apply safe_lift
        | apply safe_getitem; assumption
        | apply safe_get; assumption
        | apply safe_contains; assumption
        | apply safe_setitem; assumption
        | apply safe_append; assumption
        | apply safe_iter; assumption
        | apply safe_alloc; simpl; repeat constructor; simpl; assumption
        | apply (safe_hforM _ (above n0)); [intros; apply safe_mount_one; assumption | assumption] ].

Ltac safe_go :=
  match goal with
  | |- safe _ _ (hbind _ _) _ =>
      eapply safe_bind; [safe_go | let a := fresh "a" in let Ha := fresh "Ha" in
                                   intros a Ha; safe_go]
  | |- safe _ _ (if ?b then _ else _) _ => destruct b; safe_go
  | |- safe _ _ (hret _) _ => apply safe_ret; first [assumption | exact I]
  | _ => safe_prim
  end.

Lemma safe_plan : forall cfg provision fuel spec,
  safe n0 h0 (plan cfg provision fuel spec) (above n0).
Proof. intros. unfold plan. safe_go. Qed.

End Frame.

End HeapFrame.

(** ** The heap model: what [copy.deepcopy] produces *)

Module HeapCopy.
Import Heap.

Lemma omap_ext_in : forall {A B} (f g : A -> option B) l,
  (forall x, In x l -> f x = g x) -> omap f l = omap g l.
Proof.
  intros A B f g l H. induction l as [| x l IH]; simpl; [reflexivity |].
  rewrite (H x (or_introl eq_refl)), IH by (intros; apply H; right; assumption).
  reflexivity.
Qed.

Lemma omap_Forall2 : forall {A A' B} (f : A -> option B) (g : A' -> option B) l l',
  Forall2 (fun a a' => f a = g a') l l' -> omap f l = omap g l'.
Proof.
  intros A A' B f g l l' H. induction H as [| x x' l l' Hx _ IH]; simpl; [reflexivity |].
  rewrite Hx, IH. reflexivity.
Qed.

Lemma Forall2_right : forall {A B} (R : A -> B -> Prop) (Q : B -> Prop) l l',
  Forall2 R l l' -> (forall x y, R x y -> Q y) -> Forall Q l'.
Proof. intros A B R Q l l' H HQ. induction H; constructor; eauto. Qed.

Lemma Forall2_impl_l : forall {A B} (P : A -> Prop) (R R' : A -> B -> Prop) l l',
  Forall P l -> Forall2 R l l' -> (forall x y, P x -> R x y -> R' x y) -> Forall2 R' l l'.
Proof.
  intros A B P R R' l l' HP H HR. induction H as [| x y l l' Hxy _ IH]; constructor.
  - inversion HP; subst. apply HR; assumption.
  - inversion HP; subst. apply IH; assumption.
Qed.

Lemma below_mono : forall n m v, n <= m -> below n v -> below m v.
Proof. intros n m [] Hnm Hv; simpl in *; auto; lia. Qed.

Lemma ext_refl : forall h, ext h h.
Proof. intros h. split; auto. Qed.

Lemma ext_trans : forall h1 h2 h3, ext h1 h2 -> ext h2 h3 -> ext h1 h3.
Proof.
  intros h1 h2 h3 [Hn12 H12] [Hn23 H23]. split; [lia |].
  intros l Hl. rewrite H23 by lia. apply H12; exact Hl.
Qed.

Lemma readback_ext : forall k h h' v,
  wf h -> ext h h' -> below (next h) v -> readback k h' v = readback k h v.
Proof.
  induction k as [| k IH]; intros h h' v Hwf Hext Hv; destruct v; try reflexivity.
  simpl in Hv. simpl. destruct Hext as [Hle Hsame]. rewrite (Hsame n Hv).
  destruct (mem h n) as [o |] eqn:Hm; [| reflexivity].
  destruct (Hwf n o Hm) as [_ Hvals]. destruct o as [kvs | items]; simpl in Hvals.
  - f_equal. apply omap_ext_in. intros kv Hin. f_equal. apply IH; [exact Hwf | split; assumption |].
    rewrite Forall_forall in Hvals. apply Hvals. apply in_map. exact Hin.
  - f_equal. apply omap_ext_in. intros x Hin. apply IH; [exact Hwf | split; assumption |].
    rewrite Forall_forall in Hvals. apply Hvals. exact Hin.
Qed.

(** Allocating an object that refers below [next h] keeps [h] well formed. *)
Lemma alloc_wf : forall o h r h',
  wf h -> Forall (below (next h)) (obj_vals o) -> alloc o h = (r, h') ->
  r = Ok (next h) /\ wf h' /\ ext h h' /\ next h' = S (next h) /\ mem h' (next h) = Some o.
Proof.
  intros o h r h' Hwf Ho E. injection E as <- <-. split; [reflexivity |].
  split; [| split; [split; [cbn; lia |] | split]]; cbn.
  - intros l o' Hm. cbn in Hm |- *. revert Hm. destruct (Nat.eqb_spec l (next h)) as [-> | Hne]; intros Hm.
    + injection Hm as <-. split; [lia |].
      eapply Forall_impl; [| exact Ho]. intros v. apply below_mono. lia.
    + destruct (Hwf l o' Hm) as [Hl Hv]. split; [lia |].
      eapply Forall_impl; [| exact Hv]. intros v. apply below_mono. lia.
  - intros l Hl. destruct (Nat.eqb_spec l (next h)); [lia | reflexivity].
  - reflexivity.
  - rewrite Nat.eqb_refl. reflexivity.
Qed.

Section CopyList.

Variable A : Type.
Variable f : A -> HM A.
Variable sel : A -> hval.
Variable same : A -> A -> Prop.

(** Elementwise copying along a list, as deepcopy does for the fields of a
    dict or the items of a list. *)
Lemma hmapM_copy : forall l h l' h',
  (forall x h x' h', In x l -> wf h -> below (next h) (sel x) -> f x h = (Ok x', h') ->
     wf h' /\ ext h h' /\ below (next h') (sel x') /\ same x x' /\
     forall k, readback k h' (sel x') = readback k h (sel x)) ->
  wf h -> Forall (fun x => below (next h) (sel x)) l -> hmapM f l h = (Ok l', h') ->
  wf h' /\ ext h h' /\
  Forall2 (fun x x' => same x x' /\ below (next h') (sel x') /\
                       forall k, readback k h' (sel x') = readback k h (sel x)) l l'.
Proof.
  induction l as [| x l IH]; intros h l' h' Hf Hwf Hall E; simpl in E.
  - injection E as <- <-. split; [exact Hwf | split; [apply ext_refl | constructor]].
  - unfold hbind in E.
    destruct (f x h) as [[y | e] h1] eqn:Ex; [| discriminate].
    destruct (hmapM f l h1) as [[ys | e] h2] eqn:El; [| discriminate].
    injection E as <- <-. inversion Hall as [| ? ? Hx Hl]; subst.
    destruct (Hf x h y h1 (or_introl eq_refl) Hwf Hx Ex) as [Hwf1 [Hext1 [Hy [Hsame Hrb]]]].
    assert (Hl1 : Forall (fun x => below (next h1) (sel x)) l).
    { eapply Forall_impl; [| exact Hl]. intros z. apply below_mono. apply Hext1. }
    destruct (IH h1 ys h2 (fun z h x' h' Hin => Hf z h x' h' (or_intror Hin)) Hwf1 Hl1 El)
      as [Hwf2 [Hext2 H2]].
    split; [exact Hwf2 | split; [eapply ext_trans; eassumption |]].
    constructor.
    + split; [exact Hsame | split].
      * eapply below_mono; [apply Hext2 | exact Hy].
      * intros k. rewrite (readback_ext k h1 h2 (sel y) Hwf1 Hext2 Hy). apply Hrb.
    + eapply Forall2_impl_l; [exact Hl | exact H2 |].
      intros z z' Hz [Hs [Hb Hr]]. split; [exact Hs | split; [exact Hb |]].
      intros k. rewrite Hr. apply readback_ext; assumption.
Qed.

End CopyList.

Lemma deepcopy_copy : forall n v h c h',
  wf h -> below (next h) v -> deepcopy n v h = (Ok c, h') ->
  wf h' /\ ext h h' /\ below (next h') c /\ forall k, readback k h' c = readback k h v.
Proof.
  induction n as [| n IH]; intros v h c h' Hwf Hv E.
  - destruct v; simpl in E; try (injection E as <- <-; split; [exact Hwf | split;
      [apply ext_refl | split; [exact Hv | reflexivity]]]).
    discriminate.
  - destruct v as [| | | | l]; simpl in E; try (injection E as <- <-; split; [exact Hwf | split;
      [apply ext_refl | split; [exact Hv | reflexivity]]]).
    destruct (mem h l) as [[kvs | items] |] eqn:Hm; [| | discriminate].
    + unfold hbind at 1 in E.
      destruct (hmapM _ kvs h) as [[kvs' | x] h1] eqn:Em; [| discriminate].
      destruct (Hwf l _ Hm) as [_ Hvals]. simpl in Hvals.
      destruct (hmapM_copy _ (fun kv => let! x := deepcopy n (snd kv) in hret (fst kv, x))
                  snd (fun kv kv' => fst kv = fst kv') kvs h kvs' h1)
        as [Hwf1 [Hext1 H2]].
      * intros kv h2 kv' h3 _ Hwf2 Hb E2. unfold hbind in E2.
        destruct (deepcopy n (snd kv) h2) as [[x | e] h4] eqn:Ed; [| discriminate].
        injection E2 as <- <-. simpl.
        destruct (IH _ _ _ _ Hwf2 Hb Ed) as [Hw [He [Hbx Hr]]]. auto.
      * exact Hwf.
      * apply Forall_map. exact Hvals.
      * exact Em.
      * assert (Hb1 : Forall (below (next h1)) (obj_vals (ODict kvs'))).
        { simpl. apply Forall_map. eapply Forall2_right; [exact H2 |].
          intros ? ? [_ [Hb _]]. exact Hb. }
        unfold hbind in E. destruct (alloc (ODict kvs') h1) as [r h2] eqn:Ea.
        destruct (alloc_wf _ _ _ _ Hwf1 Hb1 Ea) as [-> [Hwf2 [Hext2 [Hn2 Hm2]]]].
        injection E as <- <-.
        split; [exact Hwf2 | split; [eapply ext_trans; eassumption | split; [simpl; lia |]]].
        intros [| k]; [reflexivity |]. simpl. rewrite Hm2, Hm. f_equal. symmetry.
        apply omap_Forall2. eapply Forall2_impl_l with (P := fun _ => True).
        -- apply Forall_forall. intros; exact I.
        -- exact H2.
        -- intros kv kv' _ [Hk [Hb Hr]]. rewrite Hk.
           rewrite (readback_ext k h1 h2 (snd kv') Hwf1 Hext2 Hb), Hr. reflexivity.
    + unfold hbind at 1 in E.
      destruct (hmapM (deepcopy n) items h) as [[items' | x] h1] eqn:Em; [| discriminate].
      destruct (Hwf l _ Hm) as [_ Hvals]. simpl in Hvals.
      destruct (hmapM_copy _ (deepcopy n) (fun x => x) (fun _ _ => True) items h items' h1)
        as [Hwf1 [Hext1 H2]].
      * intros x h2 x' h3 _ Hwf2 Hb E2.
        destruct (IH _ _ _ _ Hwf2 Hb E2) as [Hw [He [Hbx Hr]]]. auto.
      * exact Hwf.
      * exact Hvals.
      * exact Em.
      * assert (Hb1 : Forall (below (next h1)) (obj_vals (OList items'))).
        { simpl. eapply Forall2_right; [exact H2 |]. intros ? ? [_ [Hb _]]. exact Hb. }
        unfold hbind in E. destruct (alloc (OList items') h1) as [r h2] eqn:Ea.
        destruct (alloc_wf _ _ _ _ Hwf1 Hb1 Ea) as [-> [Hwf2 [Hext2 [Hn2 Hm2]]]].
        injection E as <- <-.
        split; [exact Hwf2 | split; [eapply ext_trans; eassumption | split; [simpl; lia |]]].
        intros [| k]; [reflexivity |]. simpl. rewrite Hm2, Hm. f_equal. symmetry.
        apply omap_Forall2. eapply Forall2_impl_l with (P := fun _ => True).
        -- apply Forall_forall. intros; exact I.
        -- exact H2.
        -- intros x x' _ [_ [Hb Hr]].
           rewrite (readback_ext k h1 h2 x' Hwf1 Hext2 Hb), Hr. reflexivity.
Qed.

Lemma hbind_ok : forall {A B} (m : HM A) (f : A -> HM B) h a h1,
  m h = (Ok a, h1) -> hbind m f h = f a h1.
Proof. intros A B m f h a h1 E. unfold hbind. rewrite E. reflexivity. Qed.

(** The keys of a dict read back in the same order, each to the read-back
    value. *)
Lemma omap_lookup : forall k h kvs kvs_j key,
  omap (fun kv => option_map (fun j => (fst kv, j)) (readback k h (snd kv))) kvs = Some kvs_j ->
  match lookup_key key kvs, assoc key kvs_j with
  | Some w, Some x => readback k h w = Some x
  | None, None => True
  | _, _ => False
  end.
Proof.
  induction kvs as [| [k' v] kvs IH]; intros kvs_j key E; simpl in E.
  - injection E as <-. exact I.
  - destruct (readback k h v) as [x |] eqn:Ev; [| discriminate]. simpl in E.
    destruct (omap _ kvs) as [rest |] eqn:Er; [| discriminate].
    injection E as <-. simpl. destruct (String.eqb key k'); [exact Ev |].
    apply IH; first [exact Er | reflexivity].
Qed.

Lemma readback_is_true : forall k h w x,
  readback k h w = Some x -> is_true_h w = is_true_string x.
Proof.
  intros [| k] h [| b | z | s | l] x E; simpl in E; try discriminate;
    try (injection E as <-; reflexivity).
  destruct (mem h l) as [[kvs | items] |]; [| | discriminate];
    destruct (omap _ _); simpl in E; try discriminate; injection E as <-; reflexivity.
Qed.

(** [v[key]] on the heap finds what [py_getitem] finds on the read-back tree,
    and leaves the heap alone. *)
Lemma getitem_readback : forall k h v j key x,
  readback k h v = Some j -> py_getitem j key = Ok x ->
  exists k' w, k = S k' /\ getitem v key h = (Ok w, h) /\ readback k' h w = Some x.
Proof.
  intros k h v j key x E G.
  destruct k as [| k]; destruct v as [| b | z | s | l]; simpl in E;
    try (injection E as <-; simpl in G; discriminate); try discriminate.
  destruct (mem h l) as [[kvs | items] |] eqn:Hm; [| | discriminate].
  - destruct (omap _ kvs) as [kvs_j |] eqn:Eo; simpl in E; [| discriminate].
    injection E as <-. simpl in G. pose proof (omap_lookup k h kvs kvs_j key Eo) as L.
    destruct (assoc key kvs_j) as [x' |]; [injection G as <- | discriminate].
    destruct (lookup_key key kvs) as [w |] eqn:Hl; [| contradiction].
    exists k, w. split; [reflexivity | split; [| exact L]].
    unfold getitem, hbind, as_dict. rewrite Hm. simpl. rewrite Hl. reflexivity.
  - destruct (omap _ items); simpl in E; [| discriminate]. injection E as <-. discriminate.
Qed.

(** [v.get(key)] likewise, as far as the truth test of line 45 sees it. *)
Lemma get_readback : forall k h v j key x,
  readback k h v = Some j -> py_get j key = Ok x ->
  exists w, get v key h = (Ok w, h) /\ is_true_h w = is_true_string x.
Proof.
  intros k h v j key x E G.
  destruct k as [| k]; destruct v as [| b | z | s | l]; simpl in E;
    try (injection E as <-; simpl in G; discriminate); try discriminate.
  destruct (mem h l) as [[kvs | items] |] eqn:Hm; [| | discriminate].
  - destruct (omap _ kvs) as [kvs_j |] eqn:Eo; simpl in E; [| discriminate].
    injection E as <-. simpl in G. pose proof (omap_lookup k h kvs kvs_j key Eo) as L.
    unfold get, hbind, as_dict. rewrite Hm. simpl.
    destruct (assoc key kvs_j) as [x' |]; injection G as <-;
      destruct (lookup_key key kvs) as [w |]; try contradiction.
    + exists w. split; [reflexivity |]. eapply readback_is_true. exact L.
    + exists HNull. split; reflexivity.
  - destruct (omap _ items); simpl in E; [| discriminate]. injection E as <-. discriminate.
Qed.

Lemma frame_of_wf : forall h, wf h -> frame (next h) h h.
Proof.
  intros h Hwf. split; [lia | split; [reflexivity |]].
  intros l o Hl Hm. destruct (Hwf l o Hm). lia.
Qed.

(** The objects of [opted_out_heap] refer only to objects allocated before
    them. *)
Lemma opted_out_heap_wf : wf opted_out_heap.
Proof.
  intros l o Hm.
  do 6 (destruct l as [| l]; [vm_compute in Hm; injection Hm as <-; vm_compute;
                               repeat constructor; lia |]).
  vm_compute in Hm. discriminate.
Qed.

End HeapCopy.

(** ** [plan] never mutates its input *)

Module HeapPlan.
Import Heap HeapCopy.

(** Claim C7.  However [plan] ends, and from any well-formed heap [h0] (one
    [json.loads] could build): (1) no object that existed before it ran has
    changed; (2) a returned document refers only to newly allocated objects,
    and new objects refer only to new objects, so the result shares nothing
    with the input; (3) when the input object reads back as a JSON tree [j]
    whose annotation is not [true], the result reads back as the same [j]. *)
Theorem plan_never_mutates_input : forall cfg provision fuel spec h0 r h',
  wf h0 -> plan cfg provision fuel spec h0 = (r, h') ->
  (forall l, l < next h0 -> mem h' l = mem h0 l) /\
  (forall m, r = Ok m ->
     above (next h0) m /\
     forall l o, next h0 <= l -> mem h' l = Some o -> Forall (above (next h0)) (obj_vals o)) /\
  (forall m k j, r = Ok m -> below (next h0) spec -> readback k h0 spec = Some j ->
     untriggered cfg j -> readback k h' m = Some j).
Proof.
  intros cfg provision fuel spec h0 r h' Hwf E.
  destruct (HeapFrame.safe_plan (next h0) h0 cfg provision fuel spec h0 r h'
              (frame_of_wf h0 Hwf) E) as [[_ [Hold Hnew]] Hres].
  split; [exact Hold |]. split.
  { intros m Hm. split; [apply Hres; exact Hm | exact Hnew]. }
  intros m k j Hm Hb Hj [md [ann [t [Gmd [Gann [Gt Ht]]]]]]. subst r.
  unfold plan in E.
  destruct (deepcopy fuel spec h0) as [[c | x] h1] eqn:Ed;
    [| unfold hbind in E; rewrite Ed in E; discriminate].
  destruct (deepcopy_copy fuel spec h0 c h1 Hwf Hb Ed) as [Hwf1 [_ [_ Hrb]]].
  rewrite (hbind_ok _ _ _ _ _ Ed) in E. cbv beta in E.
  assert (Hc : readback k h1 c = Some j) by (rewrite Hrb; exact Hj).
  destruct (getitem_readback _ _ _ _ _ _ Hc Gmd) as [k1 [w1 [_ [G1 R1]]]].
  rewrite (hbind_ok _ _ _ _ _ G1) in E. cbv beta in E.
  destruct (getitem_readback _ _ _ _ _ _ R1 Gann) as [k2 [w2 [_ [G2 R2]]]].
  rewrite (hbind_ok _ _ _ _ _ G2) in E. cbv beta in E.
  destruct (get_readback _ _ _ _ _ _ R2 Gt) as [w3 [G3 T3]].
  rewrite (hbind_ok _ _ _ _ _ G3) in E. cbv beta in E.
  rewrite T3, Ht in E. unfold hret in E. injection E as <- <-. exact Hc.
Qed.

(** The opted-out pod run through [plan]. *)
Lemma plan_never_mutates_input_witness :
  wf opted_out_heap /\
  let run := plan cfg0 (fun _ => Ok tt) 10 opted_out_spec opted_out_heap in
  (forall l, l < next opted_out_heap -> mem (snd run) l = mem opted_out_heap l) /\
  (forall m, fst run = Ok m ->
     above (next opted_out_heap) m /\
     forall l o, next opted_out_heap <= l -> mem (snd run) l = Some o ->
       Forall (above (next opted_out_heap)) (obj_vals o)) /\
  (forall m k j, fst run = Ok m -> below (next opted_out_heap) opted_out_spec ->
     readback k opted_out_heap opted_out_spec = Some j ->
     untriggered cfg0 j -> readback k (snd run) m = Some j).
Proof.
  split; [exact opted_out_heap_wf |].
  apply (plan_never_mutates_input cfg0 (fun _ => Ok tt) 10 opted_out_spec opted_out_heap).
  - exact opted_out_heap_wf.
  - apply surjective_pairing.
Defined.

End HeapPlan.

(** * Further properties of the handler *)

(** ** base64, line 93 *)

Lemma b64_char_index : forall n, n < 64 ->
  exists c, b64_char n = String c EmptyString /\ b64_index c = Some n /\ b64_out_char c = true.
Proof.
  intros n Hn.
  do 64 (destruct n as [| n]; [eexists; split; [reflexivity | split; reflexivity] |]).
  lia.
Qed.

Lemma div_small_add : forall r q d, q < d -> (r * d + q) / d = r.
Proof.
  intros r q d Hq. rewrite Nat.div_add_l by lia. rewrite Nat.div_small by exact Hq. lia.
Qed.

Lemma mod_small_add : forall r q d, q < d -> (r * d + q) mod d = q.
Proof.
  intros r q d Hq. rewrite Nat.add_comm, Nat.Div0.mod_add. apply Nat.mod_small. exact Hq.
Qed.

Lemma div_lt : forall a d q, d <> 0 -> a < d * q -> a / d < q.
Proof. intros. apply Nat.Div0.div_lt_upper_bound; assumption. Qed.

(** The four sextets of a full group, and how they give the bytes back. *)
Lemma b64_group : forall a b c, a < 256 -> b < 256 -> c < 256 ->
  a / 4 < 64 /\ (a mod 4) * 16 + b / 16 < 64 /\ (b mod 16) * 4 + c / 64 < 64 /\
  c mod 64 < 64 /\
  (a / 4) * 4 + ((a mod 4) * 16 + b / 16) / 16 = a /\
  (((a mod 4) * 16 + b / 16) mod 16) * 16 + ((b mod 16) * 4 + c / 64) / 4 = b /\
  (((b mod 16) * 4 + c / 64) mod 4) * 64 + c mod 64 = c.
Proof.
  intros a b c Ha Hb Hc.
  assert (H1 : a / 4 < 64) by (apply div_lt; lia).
  assert (H2 : b / 16 < 16) by (apply div_lt; lia).
  assert (H3 : c / 64 < 4) by (apply div_lt; lia).
  pose proof (Nat.mod_upper_bound a 4 ltac:(lia)).
  pose proof (Nat.mod_upper_bound b 16 ltac:(lia)).
  pose proof (Nat.mod_upper_bound c 64 ltac:(lia)).
  pose proof (Nat.div_mod_eq a 4). pose proof (Nat.div_mod_eq b 16).
  pose proof (Nat.div_mod_eq c 64).
  rewrite (div_small_add (a mod 4) (b / 16) 16 H2).
  rewrite (mod_small_add (a mod 4) (b / 16) 16 H2).
  rewrite (div_small_add (b mod 16) (c / 64) 4 H3).
  rewrite (mod_small_add (b mod 16) (c / 64) 4 H3).
  repeat split; lia.
Qed.

Lemma b64decode_pad2 : forall c1 c2 i1 i2,
  b64_index c1 = Some i1 -> b64_index c2 = Some i2 ->
  b64decode (String c1 (String c2 "==")) = Some [i1 * 4 + i2 / 16].
Proof. intros c1 c2 i1 i2 H1 H2. simpl. rewrite H1, H2. reflexivity. Qed.

Lemma b64decode_pad1 : forall c1 c2 c3 i1 i2 i3,
  b64_index c1 = Some i1 -> b64_index c2 = Some i2 -> b64_index c3 = Some i3 ->
  b64decode (String c1 (String c2 (String c3 "="))) =
  Some [i1 * 4 + i2 / 16; (i2 mod 16) * 16 + i3 / 4].
Proof. intros c1 c2 c3 i1 i2 i3 H1 H2 H3. simpl. rewrite H1, H2, H3. reflexivity. Qed.

Lemma b64decode_full : forall c1 c2 c3 c4 rest i1 i2 i3 i4 r,
  b64_index c1 = Some i1 -> b64_index c2 = Some i2 -> b64_index c3 = Some i3 ->
  b64_index c4 = Some i4 -> b64decode rest = Some r ->
  b64decode (String c1 (String c2 (String c3 (String c4 rest)))) =
  Some ([i1 * 4 + i2 / 16; (i2 mod 16) * 16 + i3 / 4; (i3 mod 4) * 64 + i4] ++ r).
Proof.
  intros c1 c2 c3 c4 rest i1 i2 i3 i4 r H1 H2 H3 H4 Hr.
  cbn [b64decode]. rewrite H1, H2, H3, H4, Hr. reflexivity.
Qed.

Lemma b64_roundtrip_bytes : forall bs, Forall (fun x => x < 256) bs ->
  b64decode (b64encode bs) = Some bs /\
  String.length (b64encode bs) = 4 * ((length bs + 2) / 3) /\
  forallb b64_out_char (list_ascii_of_string (b64encode bs)) = true.
Proof.
  fix IH 1. intros [| a [| b [| c rest]]] Hall.
  - repeat split; reflexivity.
  - inversion Hall as [| ? ? Ha _]; subst.
    destruct (b64_group a 0 0 Ha ltac:(lia) ltac:(lia)) as [B1 [B2 [_ [_ [R1 _]]]]].
    rewrite Nat.Div0.div_0_l, Nat.add_0_r in B2, R1.
    destruct (b64_char_index _ B1) as [c1 [E1 [I1 O1]]].
    destruct (b64_char_index _ B2) as [c2 [E2 [I2 O2]]].
    cbn [b64encode]. rewrite E1, E2. cbn [append].
    rewrite (b64decode_pad2 _ _ _ _ I1 I2), R1. cbn [list_ascii_of_string forallb].
    rewrite O1, O2. repeat split; reflexivity.
  - inversion Hall as [| ? ? Ha Hb']; subst. inversion Hb' as [| ? ? Hb _]; subst.
    destruct (b64_group a b 0 Ha Hb ltac:(lia)) as [B1 [B2 [B3 [_ [R1 [R2 _]]]]]].
    rewrite Nat.Div0.div_0_l, Nat.add_0_r in B3, R2.
    destruct (b64_char_index _ B1) as [c1 [E1 [I1 O1]]].
    destruct (b64_char_index _ B2) as [c2 [E2 [I2 O2]]].
    destruct (b64_char_index _ B3) as [c3 [E3 [I3 O3]]].
    cbn [b64encode]. rewrite E1, E2, E3. cbn [append].
    rewrite (b64decode_pad1 _ _ _ _ _ _ I1 I2 I3), R1, R2.
    cbn [list_ascii_of_string forallb]. rewrite O1, O2, O3. repeat split; reflexivity.
  - inversion Hall as [| ? ? Ha Hb']; subst. inversion Hb' as [| ? ? Hb Hc']; subst.
    inversion Hc' as [| ? ? Hc Hr]; subst.
    destruct (b64_group a b c Ha Hb Hc) as [B1 [B2 [B3 [B4 [R1 [R2 R3]]]]]].
    destruct (b64_char_index _ B1) as [c1 [E1 [I1 O1]]].
    destruct (b64_char_index _ B2) as [c2 [E2 [I2 O2]]].
    destruct (b64_char_index _ B3) as [c3 [E3 [I3 O3]]].
    destruct (b64_char_index _ B4) as [c4 [E4 [I4 O4]]].
    destruct (IH rest Hr) as [D [L O]].
    cbn [b64encode]. rewrite E1, E2, E3, E4. cbn [append].
    rewrite (b64decode_full _ _ _ _ _ _ _ _ _ _ I1 I2 I3 I4 D), R1, R2, R3.
    split; [reflexivity | split].
    + cbn [String.length length]. rewrite L.
      replace (S (S (S (length rest))) + 2) with ((length rest + 2) + 1 * 3) by lia.
      rewrite Nat.div_add by lia. lia.
    + cbn [list_ascii_of_string forallb]. rewrite O1, O2, O3, O4, O. reflexivity.
Qed.

Lemma str_encode_bytes : forall s, Forall (fun x => x < 256) (str_encode s).
Proof.
  intros s. unfold str_encode. apply Forall_forall. intros x Hx.
  apply in_map_iff in Hx as [c [<- _]]. apply nat_ascii_bounded.
Qed.

Lemma str_encode_length : forall s, length (str_encode s) = String.length s.
Proof.
  induction s as [| c s IH]; [reflexivity |]. unfold str_encode in *. simpl. rewrite IH.
  reflexivity.
Qed.

(** ** Decoding the fetched bundle, line 25 *)

Lemma decode_ascii_bytes : forall bs s, decode_ascii bs = Ok s ->
  map nat_of_ascii (list_ascii_of_string s) = map Byte.to_nat bs.
Proof.
  induction bs as [| b bs IH]; intros s H; simpl in H.
  - injection H as <-. reflexivity.
  - destruct (Nat.ltb_spec (Byte.to_nat b) 128) as [Hb |]; [| discriminate].
    destruct (decode_ascii bs) as [s' |] eqn:E; simpl in H; [| discriminate].
    injection H as <-. simpl. rewrite nat_ascii_embedding by lia. f_equal. apply IH. reflexivity.
Qed.

Lemma decode_ascii_err : forall bs x, decode_ascii bs = Err x -> x = UnicodeDecodeError.
Proof.
  induction bs as [| b bs IH]; intros x H; simpl in H; [discriminate |].
  destruct (Byte.to_nat b <? 128)%nat; [| injection H as <-; reflexivity].
  destruct (decode_ascii bs) eqn:E; simpl in H; [discriminate |].
  injection H as <-. apply IH. reflexivity.
Qed.

Lemma decode_ascii_ok_iff : forall bs,
  (exists s, decode_ascii bs = Ok s) <-> Forall (fun b => Byte.to_nat b < 128) bs.
Proof.
  induction bs as [| b bs IH]; simpl.
  - split; [constructor | eauto].
  - destruct (Nat.ltb_spec (Byte.to_nat b) 128) as [Hb | Hb].
    + destruct (decode_ascii bs) as [s' |] eqn:E; simpl.
      * split; [intros _; constructor; [exact Hb | apply IH; eauto] | eauto].
      * split; [intros [s H]; discriminate |].
        intros Hf. inversion Hf as [| ? ? _ Hr]; subst. apply IH in Hr as [s Hs]. discriminate.
    + split; [intros [s H]; discriminate |].
      intros Hf. inversion Hf; subst. lia.
Qed.

(** ** What one [create_configmap] or [ensure] does to the cluster *)

Lemma create_configmap_cases : forall cfg ns e st r st',
  create_configmap cfg ns e st = (r, st') ->
  (exists x, r = Err x /\ st' = logged st (CallFetch (ca_bundle_url cfg))) \/
  (exists x, r = Err x /\
     st' = logged (logged st (CallFetch (ca_bundle_url cfg))) (CallCreate ns (configmap_name cfg))) \/
  (exists x, r = Err x /\ create_fault e ns = Some x /\ create_commits e ns = true /\
   exists body data,
     fetch e (ca_bundle_url cfg) = Response 200 body /\ decode_ascii body = Ok data /\
     cm_exists ns (configmap_name cfg) st = false /\
     st' = {| configmaps := configmaps st ++ [bundle_configmap cfg ns data];
              calls := calls st ++ [CallFetch (ca_bundle_url cfg);
                                    CallCreate ns (configmap_name cfg)] |}) \/
  (r = Ok tt /\ exists body data,
     fetch e (ca_bundle_url cfg) = Response 200 body /\ decode_ascii body = Ok data /\
     cm_exists ns (configmap_name cfg) st = false /\
     st' = {| configmaps := configmaps st ++ [bundle_configmap cfg ns data];
              calls := calls st ++ [CallFetch (ca_bundle_url cfg);
                                    CallCreate ns (configmap_name cfg)] |}).
Proof.
  intros cfg ns e st r st' H.
  unfold create_configmap, requests_get, create_namespaced_config_map,
    bind, log, lift, raise in H; simpl in H.
  destruct (fetch e (ca_bundle_url cfg)) as [s body | x] eqn:Hf;
    [| injection H as <- <-; left; eexists; split; reflexivity].
  destruct (Z.eqb_spec s 200) as [-> |]; simpl in H;
    [| injection H as <- <-; left; eexists; split; reflexivity].
  destruct (decode_ascii body) as [data | x] eqn:Hd;
    [| injection H as <- <-; left; eexists; split; reflexivity].
  unfold cm_exists in *; simpl in H.
  destruct (create_fault e ns) as [x |] eqn:Hcf.
  - destruct (create_commits e ns) eqn:Hcc; destruct (existsb _ _) eqn:Hex; simpl in H;
      try (injection H as <- <-; right; left; eexists; split; reflexivity).
    injection H as <- <-. right; right; left. exists x.
    do 3 (split; [reflexivity |]). exists body, data. repeat split; try assumption.
    unfold bundle_configmap. simpl. rewrite <- app_assoc. reflexivity.
  - destruct (existsb _ _) eqn:Hex;
      [injection H as <- <-; right; left; eexists; split; reflexivity |].
    injection H as <- <-. right; right; right. split; [reflexivity |].
    exists body, data. repeat split; try assumption.
    unfold bundle_configmap. simpl. rewrite <- app_assoc. reflexivity.
Qed.

Lemma ensure_cases : forall cfg ns e st r st',
  ensure cfg ns e st = (r, st') ->
  exists t, ensure_trace cfg ns t /\ calls st' = calls st ++ t /\
    (configmaps st' = configmaps st \/
     exists data, cm_exists ns (configmap_name cfg) st = false /\
                  configmaps st' = configmaps st ++ [bundle_configmap cfg ns data]).
Proof.
  intros cfg ns e st r st' H. unfold ensure in H. rewrite read_outcome in H.
  assert (Hcreate : create_configmap cfg ns e (logged st (CallRead ns (configmap_name cfg)))
                    = (r, st') -> exists t, ensure_trace cfg ns t /\ calls st' = calls st ++ t /\
      (configmaps st' = configmaps st \/
       exists data, cm_exists ns (configmap_name cfg) st = false /\
                    configmaps st' = configmaps st ++ [bundle_configmap cfg ns data])).
  { intros Hc.
    destruct (create_configmap_cases _ _ _ _ _ _ Hc)
      as [[x [_ ->]] | [[x [_ ->]] |
          [[x [_ [_ [_ [body [data [_ [_ [Hex ->]]]]]]]]] |
           [_ [body [data [_ [_ [Hex ->]]]]]]]]].
    - eexists. split; [right; left; reflexivity |]. simpl.
      rewrite <- app_assoc. split; [reflexivity | left; reflexivity].
    - eexists. split; [right; right; reflexivity |]. simpl.
      rewrite <- !app_assoc. split; [reflexivity | left; reflexivity].
    - eexists. split; [right; right; reflexivity |]. simpl.
      rewrite <- app_assoc. split; [reflexivity | right; exists data; split; [| reflexivity]].
      exact Hex.
    - eexists. split; [right; right; reflexivity |]. simpl.
      rewrite <- app_assoc. split; [reflexivity | right; exists data; split; [| reflexivity]].
      exact Hex. }
  assert (Hread : st' = logged st (CallRead ns (configmap_name cfg)) ->
    exists t, ensure_trace cfg ns t /\ calls st' = calls st ++ t /\
      (configmaps st' = configmaps st \/
       exists data, cm_exists ns (configmap_name cfg) st = false /\
                    configmaps st' = configmaps st ++ [bundle_configmap cfg ns data])).
  { intros ->. exists [CallRead ns (configmap_name cfg)].
    split; [left; reflexivity | split; [reflexivity | left; reflexivity]]. }
  destruct (read_fault e ns) as [x |].
  - destruct x; first [exact (Hcreate H) | apply Hread; injection H as _ E; symmetry; exact E].
  - destruct (cm_exists ns (configmap_name cfg) st).
    + apply Hread; injection H as _ E; symmetry; exact E.
    + exact (Hcreate H).
Qed.

Lemma mutate_object_cases : forall cfg spec e st r st',
  mutate_object cfg spec e st = (r, st') ->
  st' = st \/ exists md ns r0, py_getitem spec "metadata" = Ok md /\
    py_getitem md "namespace" = Ok ns /\ ensure cfg ns e st = (r0, st').
Proof.
  intros cfg spec e st r st' H. rewrite mutate_object_eq in H.
  destruct (Nat.leb (json_depth spec) (copy_fuel e));
    [| injection H as _ <-; left; reflexivity].
  unfold mutate_copy, load_incluster_config, bind, lift, ret in H.
  destruct (py_getitem spec "metadata") as [md |] eqn:E1; [| injection H as _ <-; left; reflexivity].
  destruct (py_getitem md "annotations") as [ann |]; [| injection H as _ <-; left; reflexivity].
  destruct (py_get ann (ca_bundle_annotation cfg)) as [t |];
    [| injection H as _ <-; left; reflexivity].
  destruct (is_true_string t); [| injection H as _ <-; left; reflexivity].
  destruct (py_getitem md "namespace") as [ns |] eqn:E2; [| injection H as _ <-; left; reflexivity].
  destruct (in_cluster e); [| injection H as _ <-; left; reflexivity].
  right. exists md, ns.
  destruct (ensure cfg ns e st) as [[u | x] st1] eqn:E3.
  - injection H as _ <-. eauto.
  - injection H as _ <-. eauto.
Qed.

Lemma mutate_cases : forall {JP : JsonPatchLib} cfg body e st r st',
  mutate cfg body e st = (r, st') ->
  st' = st \/ exists rq spec r0, py_getitem body "request" = Ok rq /\
    py_getitem rq "object" = Ok spec /\ mutate_object cfg spec e st = (r0, st').
Proof.
  intros JP cfg body e st r st' H. unfold mutate, bind, lift, ret in H.
  destruct (py_getitem body "request") as [rq |] eqn:E1; [| injection H as _ <-; left; reflexivity].
  destruct (py_getitem rq "object") as [spec |] eqn:E2; [| injection H as _ <-; left; reflexivity].
  right. exists rq, spec.
  destruct (mutate_object cfg spec e st) as [[m | x] st1] eqn:E3;
    [| injection H as _ <-; eauto].
  destruct (py_getitem rq "uid"); injection H as _ <-; eauto.
Qed.

Lemma body_namespace_of : forall body rq spec md ns,
  py_getitem body "request" = Ok rq -> py_getitem rq "object" = Ok spec ->
  py_getitem spec "metadata" = Ok md -> py_getitem md "namespace" = Ok ns ->
  body_namespace body = Ok ns.
Proof.
  intros body rq spec md ns H1 H2 H3 H4. unfold body_namespace.
  rewrite H1; simpl. rewrite H2; simpl. rewrite H3; simpl. exact H4.
Qed.

(** ** When the injection of lines 68-84 succeeds *)

Lemma add_mount_succeeds : forall vm c,
  (exists c', add_mount vm c = Ok c') <-> container_ok c = true.
Proof.
  intros vm [| b | z | s | l | kvs]; simpl;
    try (split; [intros [c' H]; discriminate | intros ?; discriminate]).
  unfold add_mount; simpl.
  destruct (assoc "volumeMounts" kvs) as [[| | | | ms |] |]; simpl;
    split; solve [eauto | intros [c' H]; discriminate | intros ?; discriminate].
Qed.

Lemma mapM_succeeds : forall {A B} (f : A -> res B) (p : A -> bool),
  (forall x, (exists y, f x = Ok y) <-> p x = true) ->
  forall l, (exists l', res_mapM f l = Ok l') <-> forallb p l = true.
Proof.
  intros A B f p Hp l. induction l as [| x l IH]; simpl; [split; eauto |].
  rewrite Bool.andb_true_iff, <- Hp, <- IH.
  destruct (f x) as [y |]; simpl.
  - destruct (res_mapM f l) as [ys |]; simpl.
    + split; eauto.
    + split; [intros [l' H]; discriminate | intros [_ [l' H]]; discriminate].
  - split; [intros [l' H]; discriminate | intros [[y H] _]; discriminate].
Qed.

Lemma mapM_add_mount_strs : forall vm l,
  Forall (fun x => exists t, x = JStr t) l ->
  (exists l', res_mapM (add_mount vm) l = Ok l') <-> l = [].
Proof.
  intros vm [| x l] Hs; simpl; [split; eauto |].
  inversion Hs as [| ? ? [t ->] _]; subst. simpl.
  split; [intros [l' H]; discriminate | intros ?; discriminate].
Qed.

Lemma for_each_succeeds : forall vm v,
  (exists v', for_each_mut (add_mount vm) v = Ok v') <-> loop_ok v = true.
Proof.
  intros vm [| b | z | s | l | kvs]; simpl;
    try (split; [intros [v' H]; discriminate | intros ?; discriminate]).
  - destruct (res_mapM (add_mount vm) (chars s)) as [ys |] eqn:E; simpl.
    + assert (Hn : chars s = []).
      { apply (mapM_add_mount_strs vm); [apply chars_strs | eauto]. }
      destruct s; [split; eauto | discriminate].
    + destruct s as [| c s]; [simpl in E; discriminate |].
      split; [intros [v' H]; discriminate | intros ?; discriminate].
  - split.
    + intros [v' H]. destruct (res_mapM (add_mount vm) l) as [l' |] eqn:E; [| discriminate].
      apply (mapM_succeeds (add_mount vm) container_ok (add_mount_succeeds vm)). eauto.
    + intros H. apply (mapM_succeeds (add_mount vm) container_ok (add_mount_succeeds vm)) in H
        as [l' E]. rewrite E. simpl. eauto.
  - destruct (res_mapM (add_mount vm) (map (fun kv => JStr (fst kv)) kvs)) as [ys |] eqn:E;
      simpl.
    + assert (Hn : map (fun kv => JStr (fst kv)) kvs = []).
      { apply (mapM_add_mount_strs vm); [| eauto].
        apply Forall_forall. intros x Hx. apply in_map_iff in Hx as [kv [<- _]]. eauto. }
      destruct kvs; [split; eauto | discriminate].
    + destruct kvs as [| kv kvs]; [simpl in E; discriminate |].
      split; [intros [v' H]; discriminate | intros ?; discriminate].
Qed.

Lemma inject_ready_of_ok : forall cfg spec m,
  inject cfg spec = Ok m -> inject_ready spec = true.
Proof.
  intros cfg spec m H. unfold inject in H.
  destruct (py_getitem spec "spec") as [sp |] eqn:E1; [cbn [res_bind] in H | discriminate].
  destruct (py_contains sp "volumes") as [hv |] eqn:E2; [cbn [res_bind] in H | discriminate].
  match type of H with res_bind ?r _ = _ => destruct r as [sp1 |] eqn:E3 end;
    [cbn [res_bind] in H | discriminate].
  destruct (py_contains sp1 "initContainers") as [hi |] eqn:E4;
    [cbn [res_bind] in H | discriminate].
  match type of H with res_bind ?r _ = _ => destruct r as [sp2 |] eqn:E5 end;
    [cbn [res_bind] in H | discriminate].
  destruct (py_getitem sp2 "containers") as [cs |] eqn:E6; [cbn [res_bind] in H | discriminate].
  destruct (for_each_mut (add_mount (ca_volume_mount cfg)) cs) as [cs' |] eqn:E7;
    [clear H | discriminate].
  apply getitem_ok in E1 as [kvs [-> Hs]].
  destruct (volumes_step _ _ _ _ E2 E3) as [skvs [old [-> [-> Hold]]]].
  apply contains_ok in E4 as [s1kvs [Hs1 Hb]]. injection Hs1 as <-.
  rewrite assoc_assoc_set_other in Hb by discriminate.
  assert (Hc : assoc "containers" skvs = Some cs /\
               match assoc "initContainers" skvs with
               | None => true | Some ics => loop_ok ics end = true).
  { destruct hi.
    - destruct Hb as [ics Hi].
      destruct (py_getitem (JObj (assoc_set "volumes" (JArr (old ++ [ca_volume cfg])) skvs))
                  "initContainers") as [ics0 |] eqn:G; [cbn [res_bind] in E5 | discriminate].
      destruct (for_each_mut (add_mount (ca_volume_mount cfg)) ics0) as [ics' |] eqn:F;
        [cbn [res_bind] in E5 | discriminate].
      apply getitem_ok in G as [kvs0 [Hk G]]. injection Hk as <-.
      rewrite assoc_assoc_set_other in G by discriminate. rewrite Hi in G.
      injection G as <-. injection E5 as <-.
      apply getitem_ok in E6 as [kvs1 [Hk E6]]. injection Hk as <-.
      rewrite !assoc_assoc_set_other in E6 by discriminate. rewrite Hi.
      split; [exact E6 |]. apply (for_each_succeeds (ca_volume_mount cfg)). eauto.
    - injection E5 as <-. apply getitem_ok in E6 as [kvs1 [Hk E6]]. injection Hk as <-.
      rewrite assoc_assoc_set_other in E6 by discriminate. rewrite Hb. auto. }
  destruct Hc as [Hc Hi].
  unfold inject_ready. rewrite Hs, Hi, Hc.
  assert (Hl : loop_ok cs = true) by (apply (for_each_succeeds (ca_volume_mount cfg)); eauto).
  rewrite Hl. destruct Hold as [Hv | [Hv _]]; rewrite Hv; reflexivity.
Qed.

Lemma inject_ok_of_ready : forall cfg spec,
  inject_ready spec = true -> exists m, inject cfg spec = Ok m.
Proof.
  intros cfg [| b | z | s | l | kvs] H; try discriminate.
  unfold inject_ready in H.
  destruct (assoc "spec" kvs) as [[| | | | | skvs] |] eqn:Hs; try discriminate.
  rewrite !Bool.andb_true_iff in H. destruct H as [[Hv Hi] Hc].
  unfold inject. cbn [py_getitem]. rewrite Hs. cbn [res_bind py_contains].
  destruct (assoc "volumes" skvs) as [[| | | | vols |] |] eqn:Hv'; try discriminate.
  all: cbn [res_bind py_append py_setitem py_contains py_getitem]; rewrite ?Hv';
       cbn [res_bind py_append py_setitem py_contains py_getitem].
  all: rewrite assoc_assoc_set_other by discriminate.
  all: destruct (assoc "initContainers" skvs) as [ics |] eqn:Hi'; cbn [res_bind py_getitem].
  all: rewrite ?assoc_assoc_set_other, ?Hi' by discriminate; cbn [res_bind].
  all: try (apply (for_each_succeeds (ca_volume_mount cfg)) in Hi as [ics' F];
            rewrite F; cbn [res_bind py_getitem]; rewrite !assoc_assoc_set_other by discriminate).
  all: destruct (assoc "containers" skvs) as [cs |]; try discriminate; cbn [res_bind].
  all: apply (for_each_succeeds (ca_volume_mount cfg)) in Hc as [cs' F2]; rewrite F2.
  all: cbn [res_bind py_setitem]; eexists; reflexivity.
Qed.

Lemma inject_shape : forall cfg spec m, inject cfg spec = Ok m ->
  exists kvs sp3, spec = JObj kvs /\ m = JObj (assoc_set "spec" sp3 kvs).
Proof.
  intros cfg spec m H. unfold inject in H.
  destruct (py_getitem spec "spec") as [sp |] eqn:E1; [cbn [res_bind] in H | discriminate].
  apply getitem_ok in E1 as [kvs [-> _]].
  repeat match type of H with
         | res_bind ?r _ = _ => destruct r; [cbn [res_bind] in H | discriminate]
         end.
  injection H as <-. eauto.
Qed.

Lemma inject_keeps_metadata : forall cfg spec m, inject cfg spec = Ok m ->
  py_getitem m "metadata" = py_getitem spec "metadata".
Proof.
  intros cfg spec m H. destruct (inject_shape _ _ _ H) as [kvs [sp3 [-> ->]]].
  simpl. rewrite assoc_assoc_set_other by discriminate. reflexivity.
Qed.

(** * Extra properties *)

(** Lines 19-37: when [create_configmap] returns normally, the bundle URL
    answered 200, no ConfigMap of that name existed in the namespace, exactly
    one ConfigMap was added (named [configmap_name], in [ns], with the single
    key [ca_bundle_filename]) whose text has the codes of the fetched bytes,
    and the calls made were the fetch and then the create. *)
Theorem create_configmap_success : forall cfg ns e st st',
  create_configmap cfg ns e st = (Ok tt, st') ->
  exists body data,
    fetch e (ca_bundle_url cfg) = Response 200 body /\
    cm_exists ns (configmap_name cfg) st = false /\
    configmaps st' = configmaps st ++ [bundle_configmap cfg ns data] /\
    map nat_of_ascii (list_ascii_of_string data) = map Byte.to_nat body /\
    calls st' = calls st ++ [CallFetch (ca_bundle_url cfg); CallCreate ns (configmap_name cfg)].
Proof.
  intros cfg ns e st st' H.
  destruct (create_configmap_cases _ _ _ _ _ _ H)
    as [[x [Hx _]] | [[x [Hx _]] | [[x [Hx _]] | [_ [body [data [Hf [Hd [Hex ->]]]]]]]]];
    try discriminate.
  exists body, data. repeat split; try assumption.
  apply decode_ascii_bytes. exact Hd.
Qed.

Lemma create_configmap_success_witness :
  exists st', create_configmap cfg0 ns1 env_ok empty_cluster = (Ok tt, st') /\
  exists body data,
    fetch env_ok (ca_bundle_url cfg0) = Response 200 body /\
    cm_exists ns1 (configmap_name cfg0) empty_cluster = false /\
    configmaps st' = configmaps empty_cluster ++ [bundle_configmap cfg0 ns1 data] /\
    map nat_of_ascii (list_ascii_of_string data) = map Byte.to_nat body /\
    calls st' = calls empty_cluster ++ [CallFetch (ca_bundle_url cfg0);
                                        CallCreate ns1 (configmap_name cfg0)].
Proof.
  eexists. split; [cbv; reflexivity |].
  apply (create_configmap_success cfg0 ns1 env_ok empty_cluster). cbv. reflexivity.
Defined.

(** Lines 20-25: a 200 answer whose body has a byte of 128 or more makes
    [create_configmap] raise [UnicodeDecodeError] right after the fetch:
    no create is attempted and the ConfigMaps are unchanged. *)
Theorem create_configmap_non_ascii : forall cfg ns e st body,
  fetch e (ca_bundle_url cfg) = Response 200 body ->
  Exists (fun b => 128 <= Byte.to_nat b) body ->
  create_configmap cfg ns e st =
    (Err UnicodeDecodeError, logged st (CallFetch (ca_bundle_url cfg))).
Proof.
  intros cfg ns e st body Hf Hx.
  assert (Hd : decode_ascii body = Err UnicodeDecodeError).
  { destruct (decode_ascii body) as [s | x] eqn:Ed.
    - exfalso. assert (Hall : Forall (fun b => Byte.to_nat b < 128) body)
        by (apply (proj1 (decode_ascii_ok_iff body)); eauto).
      rewrite Forall_forall in Hall. apply Exists_exists in Hx as [b [Hin Hb]].
      specialize (Hall b Hin). lia.
    - f_equal. exact (decode_ascii_err body x Ed). }
  unfold create_configmap, requests_get, bind, log, lift, logged; simpl.
  rewrite Hf. simpl. rewrite Hd. reflexivity.
Qed.

Lemma create_configmap_non_ascii_witness :
  fetch env_latin1 (ca_bundle_url cfg0) = Response 200 [Byte.xe9] /\
  Exists (fun b => 128 <= Byte.to_nat b) [Byte.xe9] /\
  create_configmap cfg0 ns1 env_latin1 empty_cluster =
    (Err UnicodeDecodeError, logged empty_cluster (CallFetch (ca_bundle_url cfg0))).
Proof.
  assert (H1 : fetch env_latin1 (ca_bundle_url cfg0) = Response 200 [Byte.xe9]) by reflexivity.
  assert (H2 : Exists (fun b => 128 <= Byte.to_nat b) [Byte.xe9])
    by (apply Exists_cons_hd; simpl; lia).
  exact (conj H1 (conj H2 (create_configmap_non_ascii cfg0 ns1 env_latin1 empty_cluster
                             [Byte.xe9] H1 H2))).
Defined.

(** Lines 19-37: a [create_configmap] that raises has made the fetch, and
    possibly the create; it has added a ConfigMap only when its create call
    failed for a reason of its own after the API server had stored the
    ConfigMap (a timeout or a dropped connection), and then exactly the
    bundle ConfigMap, in a namespace that had none of that name. *)
Theorem create_configmap_failure_effects : forall cfg ns e st x st',
  create_configmap cfg ns e st = (Err x, st') ->
  (configmaps st' = configmaps st /\
   (calls st' = calls st ++ [CallFetch (ca_bundle_url cfg)] \/
    calls st' = calls st ++ [CallFetch (ca_bundle_url cfg); CallCreate ns (configmap_name cfg)])) \/
  (create_fault e ns = Some x /\ create_commits e ns = true /\
   exists data, cm_exists ns (configmap_name cfg) st = false /\
     configmaps st' = configmaps st ++ [bundle_configmap cfg ns data] /\
     calls st' = calls st ++ [CallFetch (ca_bundle_url cfg); CallCreate ns (configmap_name cfg)]).
Proof.
  intros cfg ns e st x st' H.
  destruct (create_configmap_cases _ _ _ _ _ _ H)
    as [[y [_ ->]] | [[y [_ ->]] |
        [[y [Hy [Hcf [Hcc [body [data [_ [_ [Hex ->]]]]]]]]] | [Hok _]]]];
    [| | | discriminate].
  - left. split; [reflexivity | left; reflexivity].
  - left. split; [reflexivity | right]. simpl. rewrite <- app_assoc. reflexivity.
  - right. injection Hy as <-. split; [exact Hcf | split; [exact Hcc |]].
    exists data. auto.
Qed.

Lemma create_configmap_failure_effects_witness :
  exists st', create_configmap cfg0 ns1 env_create_timeout empty_cluster =
                (Err (ApiException 504), st') /\
  ((configmaps st' = configmaps empty_cluster /\
    (calls st' = calls empty_cluster ++ [CallFetch (ca_bundle_url cfg0)] \/
     calls st' = calls empty_cluster ++ [CallFetch (ca_bundle_url cfg0);
                                         CallCreate ns1 (configmap_name cfg0)])) \/
   (create_fault env_create_timeout ns1 = Some (ApiException 504) /\
    create_commits env_create_timeout ns1 = true /\
    exists data, cm_exists ns1 (configmap_name cfg0) empty_cluster = false /\
      configmaps st' = configmaps empty_cluster ++ [bundle_configmap cfg0 ns1 data] /\
      calls st' = calls empty_cluster ++ [CallFetch (ca_bundle_url cfg0);
                                          CallCreate ns1 (configmap_name cfg0)])).
Proof.
  eexists. split; [cbv; reflexivity |].
  apply (create_configmap_failure_effects cfg0 ns1 env_create_timeout empty_cluster).
  cbv. reflexivity.
Defined.

(** Lines 27-37: when the bundle is fetched and decoded but a ConfigMap of
    that name already exists in the namespace, the create is rejected with
    [ApiException(409)], which propagates; nothing is added. *)
Theorem create_configmap_existing_409 : forall cfg ns e st body data,
  fetch e (ca_bundle_url cfg) = Response 200 body -> decode_ascii body = Ok data ->
  create_fault e ns = None -> cm_exists ns (configmap_name cfg) st = true ->
  create_configmap cfg ns e st =
    (Err (ApiException 409),
     logged (logged st (CallFetch (ca_bundle_url cfg))) (CallCreate ns (configmap_name cfg))).
Proof. exact create_configmap_409. Qed.

Lemma create_configmap_existing_409_witness :
  let st := {| configmaps := [cm0]; calls := [] |} in
  fetch env_ok (ca_bundle_url cfg0) = Response 200 pem_bytes /\
  decode_ascii pem_bytes = Ok "PEM" /\ create_fault env_ok ns1 = None /\
  cm_exists ns1 (configmap_name cfg0) st = true /\
  create_configmap cfg0 ns1 env_ok st =
    (Err (ApiException 409),
     logged (logged st (CallFetch (ca_bundle_url cfg0))) (CallCreate ns1 (configmap_name cfg0))).
Proof.
  intros st.
  assert (H1 : fetch env_ok (ca_bundle_url cfg0) = Response 200 pem_bytes) by reflexivity.
  assert (H2 : decode_ascii pem_bytes = Ok "PEM") by reflexivity.
  assert (H3 : create_fault env_ok ns1 = None) by reflexivity.
  assert (H4 : cm_exists ns1 (configmap_name cfg0) st = true) by reflexivity.
  exact (conj H1 (conj H2 (conj H3 (conj H4
    (create_configmap_existing_409 cfg0 ns1 env_ok st pem_bytes "PEM" H1 H2 H3 H4))))).
Defined.

(** Lines 41-96: however the handler ends, it never changes or removes a
    ConfigMap: either the ConfigMaps are as before, or exactly one was added
    at the end, named [configmap_name], in the namespace given by the
    object's [metadata.namespace], where no ConfigMap of that name existed,
    holding the single key [ca_bundle_filename]. *)
Theorem mutate_configmaps_grow_by_one : forall {JP : JsonPatchLib} cfg body e st r st',
  mutate cfg body e st = (r, st') ->
  configmaps st' = configmaps st \/
  exists ns data, body_namespace body = Ok ns /\
    cm_exists ns (configmap_name cfg) st = false /\
    configmaps st' = configmaps st ++ [bundle_configmap cfg ns data].
Proof.
  intros JP cfg body e st r st' H.
  destruct (mutate_cases _ _ _ _ _ _ H) as [-> | [rq [spec [r0 [E1 [E2 E3]]]]]];
    [left; reflexivity |].
  destruct (mutate_object_cases _ _ _ _ _ _ E3) as [-> | [md [ns [r1 [E4 [E5 E6]]]]]];
    [left; reflexivity |].
  destruct (ensure_cases _ _ _ _ _ _ E6) as [t [_ [_ [Hc | [data [Hex Hc]]]]]];
    [left; exact Hc |].
  right. exists ns, data. split; [eapply body_namespace_of; eassumption |]. auto.
Qed.

Lemma mutate_configmaps_grow_by_one_witness :
  let run := @mutate whole_doc_patch cfg0 body_pod_ns1 env_ok empty_cluster in
  configmaps (snd run) = configmaps empty_cluster \/
  exists ns data, body_namespace body_pod_ns1 = Ok ns /\
    cm_exists ns (configmap_name cfg0) empty_cluster = false /\
    configmaps (snd run) = configmaps empty_cluster ++ [bundle_configmap cfg0 ns data].
Proof.
  intros run.
  apply (@mutate_configmaps_grow_by_one whole_doc_patch cfg0 body_pod_ns1 env_ok empty_cluster
           (fst run) (snd run)).
  cbv. reflexivity.
Defined.

(** Lines 41-96: the external calls one request makes are none, or, for
    the object's namespace and [configmap_name], the ConfigMap read, then
    possibly the bundle fetch, then possibly the create, in this order. *)
Theorem mutate_call_trace : forall {JP : JsonPatchLib} cfg body e st r st',
  mutate cfg body e st = (r, st') ->
  calls st' = calls st \/
  exists ns t, body_namespace body = Ok ns /\ ensure_trace cfg ns t /\ calls st' = calls st ++ t.
Proof.
  intros JP cfg body e st r st' H.
  destruct (mutate_cases _ _ _ _ _ _ H) as [-> | [rq [spec [r0 [E1 [E2 E3]]]]]];
    [left; reflexivity |].
  destruct (mutate_object_cases _ _ _ _ _ _ E3) as [-> | [md [ns [r1 [E4 [E5 E6]]]]]];
    [left; reflexivity |].
  destruct (ensure_cases _ _ _ _ _ _ E6) as [t [Ht [Hc _]]].
  right. exists ns, t. split; [eapply body_namespace_of; eassumption |]. auto.
Qed.

Lemma mutate_call_trace_witness :
  let run := @mutate whole_doc_patch cfg0 body_pod_ns1 env_ok empty_cluster in
  calls (snd run) = calls empty_cluster \/
  exists ns t, body_namespace body_pod_ns1 = Ok ns /\ ensure_trace cfg0 ns t /\
               calls (snd run) = calls empty_cluster ++ t.
Proof.
  intros run.
  apply (@mutate_call_trace whole_doc_patch cfg0 body_pod_ns1 env_ok empty_cluster
           (fst run) (snd run)).
  cbv. reflexivity.
Defined.

(** Lines 42-45: an object whose annotations exist but whose trigger
    annotation is not the string "true" causes no call to the cluster or to
    the bundle source, whether or not the handler then answers. *)
Theorem untriggered_makes_no_calls : forall {JP : JsonPatchLib} cfg body e st rq spec r st',
  py_getitem body "request" = Ok rq -> py_getitem rq "object" = Ok spec ->
  untriggered cfg spec ->
  mutate cfg body e st = (r, st') -> st' = st.
Proof.
  intros JP cfg body e st rq spec r st' H1 H2 [md [ann [t [Gmd [Gann [Gt Ht]]]]]] H.
  destruct (mutate_cases _ _ _ _ _ _ H) as [-> | [rq' [spec' [r0 [E1 [E2 E3]]]]]];
    [reflexivity |].
  rewrite H1 in E1. injection E1 as <-. rewrite H2 in E2. injection E2 as <-.
  rewrite mutate_object_eq in E3.
  destruct (Nat.leb (json_depth spec) (copy_fuel e)); [| injection E3 as _ <-; reflexivity].
  unfold mutate_copy, bind, lift, ret in E3.
  rewrite Gmd, Gann, Gt, Ht in E3. injection E3 as _ <-. reflexivity.
Qed.

Lemma untriggered_makes_no_calls_witness :
  let body := review_body (JNum 1) Heap.pod_opted_out in
  let run := @mutate whole_doc_patch cfg0 body env_ok empty_cluster in
  py_getitem body "request" = Ok (JObj [("uid", JNum 1); ("object", Heap.pod_opted_out)]) /\
  py_getitem (JObj [("uid", JNum 1); ("object", Heap.pod_opted_out)]) "object" =
    Ok Heap.pod_opted_out /\
  untriggered cfg0 Heap.pod_opted_out /\
  snd run = empty_cluster.
Proof.
  intros body run.
  assert (H1 : py_getitem body "request" =
               Ok (JObj [("uid", JNum 1); ("object", Heap.pod_opted_out)])) by reflexivity.
  assert (H2 : py_getitem (JObj [("uid", JNum 1); ("object", Heap.pod_opted_out)]) "object" =
               Ok Heap.pod_opted_out) by reflexivity.
  assert (H3 : untriggered cfg0 Heap.pod_opted_out)
    by (do 3 eexists; split; [reflexivity | split; [reflexivity | split; reflexivity]]).
  split; [exact H1 | split; [exact H2 | split; [exact H3 |]]].
  apply (@untriggered_makes_no_calls whole_doc_patch cfg0 body env_ok empty_cluster _ _
           (fst run) (snd run) H1 H2 H3).
  cbv. reflexivity.
Defined.



(** Lines 68-84: the injection runs to the end exactly when [spec] is a
    dict, [spec.volumes] is absent or a list, [spec.initContainers] is absent
    or iterable with the loop body, and [spec.containers] is present and
    iterable with it: a list of dicts whose [volumeMounts] is absent or a
    list, or an empty dict or string. *)
Theorem inject_succeeds_iff : forall cfg spec,
  (exists m, inject cfg spec = Ok m) <-> inject_ready spec = true.
Proof.
  intros cfg spec. split.
  - intros [m H]. exact (inject_ready_of_ok _ _ _ H).
  - apply inject_ok_of_ready.
Qed.

(** Lines 45-84: nothing checks for an existing [ca-bundle] volume, so
    running the handler's mutation again on its own output (a reinvoked
    webhook) appends a second, identical [ca-bundle] volume. *)
Theorem reinvocation_duplicates_volume : forall cfg spec e st m1 st1 e' st2 m2 st3,
  triggered cfg spec ->
  mutate_object cfg spec e st = (Ok m1, st1) ->
  mutate_object cfg m1 e' st2 = (Ok m2, st3) ->
  exists old, spec_field m2 "volumes" = Some (JArr (old ++ [ca_volume cfg; ca_volume cfg])).
Proof.
  intros cfg spec e st m1 st1 e' st2 m2 st3 [md0 [ann0 [T1 [T2 T3]]]] H1 H2.
  apply mutate_object_ok in H1 as [md [ann [t [G1 [G2 [G3 Hif]]]]]].
  rewrite T1 in G1. injection G1 as <-. rewrite T2 in G2. injection G2 as <-.
  rewrite T3 in G3. injection G3 as <-. simpl in Hif.
  destruct Hif as [ns [_ [_ Hinj1]]].
  apply mutate_object_ok in H2 as [md' [ann' [t' [G1' [G2' [G3' Hif']]]]]].
  rewrite (inject_keeps_metadata _ _ _ Hinj1), T1 in G1'. injection G1' as <-.
  rewrite T2 in G2'. injection G2' as <-. rewrite T3 in G3'. injection G3' as <-.
  simpl in Hif'. destruct Hif' as [ns' [_ [_ Hinj2]]].
  destruct (inject_ok _ _ _ Hinj1) as [[old [V1 _]] _].
  destruct (inject_ok _ _ _ Hinj2) as [[old' [V2 [V2' | [V2' _]]]] _];
    rewrite V1 in V2'; [| discriminate].
  injection V2' as <-. exists old. rewrite V2, <- app_assoc. reflexivity.
Qed.

Lemma reinvocation_duplicates_volume_witness :
  exists m1 st1 m2 st3,
    mutate_object cfg0 pod_ns1 env_ok empty_cluster = (Ok m1, st1) /\
    mutate_object cfg0 m1 env_ok st1 = (Ok m2, st3) /\
    exists old, spec_field m2 "volumes" = Some (JArr (old ++ [ca_volume cfg0; ca_volume cfg0])).
Proof.
  do 4 eexists. split; [cbv; reflexivity |]. split; [cbv; reflexivity |].
  eapply (reinvocation_duplicates_volume cfg0 pod_ns1 env_ok empty_cluster _ _ env_ok
            (snd (mutate_object cfg0 pod_ns1 env_ok empty_cluster)));
    [exact triggered_pod_ns1 | cbv; reflexivity | cbv; reflexivity].
Defined.

(** Line 93: the [patch] field is the padded base64 of the bytes of
    [str(patch)], so decoding it gives those bytes back. *)
Theorem b64_patch_roundtrip : forall s,
  b64decode (b64encode (str_encode s)) = Some (str_encode s).
Proof. intros s. apply b64_roundtrip_bytes. apply str_encode_bytes. Qed.

(** Line 93: the [patch] field of [str(patch)] of [n] characters has
    [4 * ceil(n / 3)] characters, all from the base64 alphabet or [=]. *)
Theorem b64_patch_shape : forall s,
  String.length (b64encode (str_encode s)) = 4 * ((String.length s + 2) / 3) /\
  forallb b64_out_char (list_ascii_of_string (b64encode (str_encode s))) = true.
Proof.
  intros s. destruct (b64_roundtrip_bytes (str_encode s) (str_encode_bytes s)) as [_ [L O]].
  rewrite str_encode_length in L. auto.
Qed.

(** Line 43: an object nested deeper than [copy.deepcopy] can copy under the
    recursion limit makes the handler raise [RecursionError], whatever its
    annotations, before any answer and with no ConfigMap read, fetch or
    create. *)
Theorem deep_object_recursion_error : forall {JP : JsonPatchLib} cfg body e st rq spec,
  py_getitem body "request" = Ok rq -> py_getitem rq "object" = Ok spec ->
  copy_fuel e < json_depth spec ->
  mutate cfg body e st = (Err RecursionError, st).
Proof.
  intros JP cfg body e st rq spec H1 H2 Hd.
  eapply mutate_fails_with_object; [exact H1 | exact H2 |].
  rewrite mutate_object_eq.
  replace (Nat.leb (json_depth spec) (copy_fuel e)) with false; [reflexivity |].
  symmetry. apply Nat.leb_gt. exact Hd.
Qed.

Lemma deep_object_recursion_error_witness :
  py_getitem body_deep "request" =
    Ok (JObj [("uid", JNum 1); ("object", JObj [("spec", nested_list 599)])]) /\
  copy_fuel env_ok < json_depth (JObj [("spec", nested_list 599)]) /\
  @mutate whole_doc_patch cfg0 body_deep env_ok empty_cluster
    = (Err RecursionError, empty_cluster).
Proof.
  assert (H1 : py_getitem body_deep "request" =
    Ok (JObj [("uid", JNum 1); ("object", JObj [("spec", nested_list 599)])]))
    by reflexivity.
  assert (H3 : copy_fuel env_ok < json_depth (JObj [("spec", nested_list 599)]))
    by (apply Nat.ltb_lt; vm_compute; reflexivity).
  exact (conj H1 (conj H3
    (@deep_object_recursion_error whole_doc_patch cfg0 body_deep env_ok empty_cluster
       _ _ H1 eq_refl H3))).
Defined.


